(** * WAMIT GDF importer ([gdf-import.py]): a shallow embedding

    The development follows [import_wamit_gdf_operator]: the lines of the
    file (the result of [file.readlines()]) are scanned once; a mutable flag
    [in_header] separates the header region, where the labelled values
    ULEN, GRAV, ISX, ISY and NPAN are looked up, from the panel region, where
    every line of exactly twelve tokens becomes one quadrilateral face.

    Modelling choices.
    - Python [str] values are [string]s, [list]s are [list]s, [len] and list
      positions are [nat]; the one index that may be negative,
      [valueindex], is a [Z] and is resolved by [getitem] the way Python
      resolves negative subscripts.
    - Python's [float] is an interface ([PyFloat]): the conversion
      [float(s)], the literal [0.0] and the test [x == 1].  Theorems are
      stated for every implementation of the interface; the instance
      [QFloat] (decimal literals as exact rationals) serves the concrete
      runs.
    - [print] and exceptions live in a small monad [M]: the console is a
      list of printed lines, kept also when an exception is raised.
    - The calls into Blender are summarised by the record
      [blender_object]: the data given to [mesh.from_pydata], the value
      assigned to [obj.scale], and the mirror-modifier operations in the
      order they are issued. *)

From Stdlib Require Import String Ascii List ZArith QArith Lia Bool Arith.
Import ListNotations.

Local Open Scope string_scope.
Local Open Scope nat_scope.

(** ** Python strings: [str.strip] and [str.split] without argument *)

Module PyStr.

(** [c.isspace()] on the ASCII range: TAB, LF, VT, FF, CR, the four
    separators FS GS RS US, and the blank.  (Non-ASCII white space is not
    modelled; GDF files are ASCII text.) *)
Definition isspace (c : ascii) : bool :=
  let n := nat_of_ascii c in
  ((9 <=? n) && (n <=? 13)) || ((28 <=? n) && (n <=? 31)) || (n =? 32).

Definition is_empty (s : string) : bool :=
  match s with EmptyString => true | String _ _ => false end.

Fixpoint lstrip (s : string) : string :=
  match s with
  | EmptyString => EmptyString
  | String c s' => if isspace c then lstrip s' else s
  end.

Fixpoint rstrip (s : string) : string :=
  match s with
  | EmptyString => EmptyString
  | String c s' =>
      let r := rstrip s' in
      if isspace c && is_empty r then EmptyString else String c r
  end.

Definition strip (s : string) : string := lstrip (rstrip s).

(** [split_from tok s]: [tok] is the token being read; runs of white space
    separate tokens and produce no empty token. *)
Fixpoint split_from (tok : string) (s : string) : list string :=
  match s with
  | EmptyString => if is_empty tok then [] else [tok]
  | String c s' =>
      if isspace c
      then (if is_empty tok then split_from EmptyString s'
            else tok :: split_from EmptyString s')
      else split_from (tok ++ String c EmptyString) s'
  end.

Definition split (s : string) : list string := split_from EmptyString s.

(** [k in l] and [l.index(k)] on lists of strings. *)
Fixpoint contains (l : list string) (k : string) : bool :=
  match l with
  | [] => false
  | w :: l' => if String.eqb w k then true else contains l' k
  end.

Fixpoint index_of (l : list string) (k : string) : option nat :=
  match l with
  | [] => None
  | w :: l' =>
      if String.eqb w k then Some 0
      else match index_of l' k with
           | Some i => Some (S i)
           | None => None
           end
  end.

(** [range(a, b)] as a list. *)
Definition range (a b : nat) : list nat := seq a (b - a).

End PyStr.

Import PyStr.

(** ** Python floats as an interface *)

Class PyFloat : Type := {
  pyfloat : Type;
  (** [float(s)]; [None] stands for the [ValueError] it raises. *)
  float_of_string : string -> option pyfloat;
  (** the literal [0.0] *)
  fzero : pyfloat;
  (** [x == 1] *)
  eq_one : pyfloat -> bool;
  (** [0.0 == 1] is [False] *)
  fzero_not_one : eq_one fzero = false
}.

(** ** Exceptions and console output *)

Inductive exn : Type := ValueError | IndexError.

Inductive result (A : Type) : Type :=
| Ok (a : A)
| Raise (e : exn).
Arguments Ok {A} a.
Arguments Raise {A} e.

(** A computation receives the console printed so far and gives back a value
    or an exception, with the console as it then is. *)
Definition M (A : Type) : Type := list string -> result A * list string.

Definition ret {A} (a : A) : M A := fun out => (Ok a, out).

Definition bind {A B} (m : M A) (f : A -> M B) : M B :=
  fun out =>
    match m out with
    | (Ok a, out') => f a out'
    | (Raise e, out') => (Raise e, out')
    end.

Definition raise {A} (e : exn) : M A := fun out => (Raise e, out).

Definition print (s : string) : M unit := fun out => (Ok tt, (out ++ [s])%list).

Declare Scope py_scope.
Delimit Scope py_scope with py.
Notation "x <- m ;; k" := (bind m (fun x => k))
  (at level 61, m at next level, right associativity) : py_scope.
Notation "m ;; k" := (bind m (fun _ => k))
  (at level 61, right associativity) : py_scope.
Local Open Scope py_scope.

(** Running a computation from an empty console. *)
Definition run {A} (m : M A) : result A * list string := m [].

(** [l[i]] with Python's negative subscripts. *)
Definition getitem (l : list string) (i : Z) : M string :=
  let n := Z.of_nat (length l) in
  let j := (if i <? 0 then i + n else i)%Z in
  if ((0 <=? j) && (j <? n))%Z
  then match nth_error l (Z.to_nat j) with
       | Some w => ret w
       | None => raise IndexError
       end
  else raise IndexError.

(** [l.index(k)]: [ValueError] when [k] is absent. *)
Definition list_index (l : list string) (k : string) : M nat :=
  match index_of l k with
  | Some i => ret i
  | None => raise ValueError
  end.

(** ** The importer *)

Section Importer.

Context {F : PyFloat}.

Definition float (s : string) : M pyfloat :=
  match float_of_string s with
  | Some x => ret x
  | None => raise ValueError
  end.

Definition vertex : Type := (pyfloat * pyfloat * pyfloat)%type.

(** The local variables of [import_wamit_gdf_operator] that the loop
    updates. *)
Record locals : Type := mkLocals {
  ulen : pyfloat;
  grav : pyfloat;
  isx : pyfloat;
  isy : pyfloat;
  npan : pyfloat;
  vertices : list vertex;
  faces : list (list nat);
  in_header : bool
}.

Definition set_ulen (x : pyfloat) (st : locals) : locals :=
  mkLocals x (grav st) (isx st) (isy st) (npan st)
           (vertices st) (faces st) (in_header st).
Definition set_grav (x : pyfloat) (st : locals) : locals :=
  mkLocals (ulen st) x (isx st) (isy st) (npan st)
           (vertices st) (faces st) (in_header st).
Definition set_isx (x : pyfloat) (st : locals) : locals :=
  mkLocals (ulen st) (grav st) x (isy st) (npan st)
           (vertices st) (faces st) (in_header st).
Definition set_isy (x : pyfloat) (st : locals) : locals :=
  mkLocals (ulen st) (grav st) (isx st) x (npan st)
           (vertices st) (faces st) (in_header st).
Definition set_npan (x : pyfloat) (st : locals) : locals :=
  mkLocals (ulen st) (grav st) (isx st) (isy st) x
           (vertices st) (faces st) (in_header st).
Definition set_in_header (b : bool) (st : locals) : locals :=
  mkLocals (ulen st) (grav st) (isx st) (isy st) (npan st)
           (vertices st) (faces st) b.
Definition set_mesh (vs : list vertex) (fs : list (list nat)) (st : locals)
  : locals :=
  mkLocals (ulen st) (grav st) (isx st) (isy st) (npan st)
           vs fs (in_header st).

(** [ulen, grav, isx, isy, npan = 0.0, ...], [vertices = []],
    [faces = []], [in_header = True]. *)
Definition initial : locals :=
  mkLocals fzero fzero fzero fzero fzero [] [] true.

Definition keywords : list string := ["ULEN"; "GRAV"; "ISX"; "ISY"; "NPAN"].

(** [words = lines[i].strip().split()] *)
Definition words_of (line : string) : list string := split (strip line).

(** The [if keyword == 'ULEN': ... elif ...] chain. *)
Definition assign (keyword value : string) (st : locals) : M locals :=
  if String.eqb keyword "ULEN" then
    print ("ULEN: " ++ value) ;; x <- float value ;; ret (set_ulen x st)
  else if String.eqb keyword "GRAV" then
    print ("GRAV: " ++ value) ;; x <- float value ;; ret (set_grav x st)
  else if String.eqb keyword "ISX" then
    print ("ISX: " ++ value) ;; x <- float value ;; ret (set_isx x st)
  else if String.eqb keyword "ISY" then
    print ("ISY: " ++ value) ;; x <- float value ;; ret (set_isy x st)
  else if String.eqb keyword "NPAN" then
    print ("NPAN: " ++ value) ;; x <- float value ;; ret (set_npan x st)
  else ret st.

(** The body of [for keyword in keywords].  [floor(len(words)/2)] is the
    integer quotient. *)
Definition scan_keyword (words : list string) (st : locals)
  (keyword : string) : M locals :=
  if contains words keyword then
    index <- list_index words keyword ;;
    let valueindex := (Z.of_nat index - Z.of_nat (length words / 2))%Z in
    value <- getitem words valueindex ;;
    assign keyword value st
  else ret st.

Fixpoint for_keywords (ks : list string) (words : list string)
  (st : locals) : M locals :=
  match ks with
  | [] => ret st
  | keyword :: ks' =>
      st' <- scan_keyword words st keyword ;;
      for_keywords ks' words st'
  end.

(** [(float(words[j]), float(words[j + 1]), float(words[j + 2]))] *)
Definition triple (words : list string) (j : nat) : M vertex :=
  wx <- getitem words (Z.of_nat j) ;; x <- float wx ;;
  wy <- getitem words (Z.of_nat (j + 1)) ;; y <- float wy ;;
  wz <- getitem words (Z.of_nat (j + 2)) ;; z <- float wz ;;
  ret (x, y, z).

(** The list comprehension over [range(0, 12, 3)]. *)
Fixpoint triples (words : list string) (js : list nat) : M (list vertex) :=
  match js with
  | [] => ret []
  | j :: js' =>
      v <- triple words j ;;
      vs <- triples words js' ;;
      ret (v :: vs)
  end.

(** One iteration of [for i in range(len(lines))]. *)
Definition body (st : locals) (line : string) : M locals :=
  let words := words_of line in
  if in_header st then
    if length words =? 1 then
      print "End of header" ;;
      ret (set_in_header false st)
    else for_keywords keywords words st
  else
    if length words =? 12 then
      print ("Vertex Data: " ++ line) ;;
      vs <- triples words [0; 3; 6; 9] ;;
      let vertices' := (vertices st ++ vs)%list in
      let face := range (length vertices' - 4) (length vertices') in
      ret (set_mesh vertices' (faces st ++ [face])%list st)
    else ret st.

Fixpoint for_lines (lines : list string) (st : locals) : M locals :=
  match lines with
  | [] => ret st
  | line :: lines' =>
      st' <- body st line ;;
      for_lines lines' st'
  end.

(** What the importer asks of Blender about mirror modifiers:
    [bpy.ops.object.modifier_add(type='MIRROR')] and
    [modifiers["Mirror"].use_axis[k] = True]. *)
Inductive host_op : Type :=
| modifier_add_MIRROR
| use_axis_True (k : nat).

Record blender_object : Type := mkObject {
  mesh_vertices : list vertex;
  mesh_faces : list (list nat);
  scale : pyfloat * pyfloat * pyfloat;
  mirror_ops : list host_op
}.

Definition mirror_if (flag : pyfloat) (k : nat) (msg : string)
  : M (list host_op) :=
  if eq_one flag then
    print msg ;; ret [modifier_add_MIRROR; use_axis_True k]
  else ret [].

(** The part of the function after the loop. *)
Definition finish (st : locals) : M blender_object :=
  opsx <- mirror_if (isx st) 0 "X = 0 is a geometric plane of symmetry" ;;
  opsy <- mirror_if (isy st) 1 "Y = 0 is a geometric plane of symmetry" ;;
  print "WAMIT GDF file imported successfully." ;;
  ret (mkObject (vertices st) (faces st)
                (ulen st, ulen st, ulen st) (opsx ++ opsy)%list).

Definition import_wamit_gdf_operator (lines : list string)
  : M blender_object :=
  print "Hello World" ;;
  st <- for_lines lines initial ;;
  finish st.

End Importer.

(** ** A concrete float: decimal literals as exact rationals

    [QFloat] reads the literals [sign? digits [. digits]] (at least one
    digit) and returns their exact value in lowest terms; everything else is
    rejected.  It agrees with Python's [float] on the literals used in the
    examples below (short decimals, where [== 1] is decided by the exact
    value); exponents, [inf], [nan] and digit separators are outside this
    fragment. *)

Module Decimal.

Definition digit_of (c : ascii) : option Z :=
  let n := nat_of_ascii c in
  if (48 <=? n) && (n <=? 57) then Some (Z.of_nat (n - 48)) else None.

(** Reads the longest prefix of digits: the number read so far, how many
    digits it has, and the rest of the string. *)
Fixpoint read_digits (s : string) (acc : Z) (count : nat)
  : Z * nat * string :=
  match s with
  | EmptyString => (acc, count, s)
  | String c s' =>
      match digit_of c with
      | Some d => read_digits s' (10 * acc + d)%Z (S count)
      | None => (acc, count, s)
      end
  end.

Definition unsigned (s : string) : option Q :=
  let '(int_part, ni, rest) := read_digits s 0%Z 0 in
  match rest with
  | EmptyString =>
      if ni =? 0 then None else Some (Qred (int_part # 1))
  | String "." rest' =>
      let '(mantissa, nf, rest'') := read_digits rest' int_part 0 in
      match rest'' with
      | EmptyString =>
          if ni + nf =? 0 then None
          else Some (Qred (mantissa # Z.to_pos (10 ^ Z.of_nat nf)))
      | String _ _ => None
      end
  | String _ _ => None
  end.

Definition parse (s : string) : option Q :=
  match s with
  | String "-" s' =>
      match unsigned s' with Some q => Some (Qred (Qopp q)) | None => None end
  | String "+" s' => unsigned s'
  | _ => unsigned s
  end.

End Decimal.

Definition QFloat : PyFloat := {|
  pyfloat := Q;
  float_of_string := Decimal.parse;
  fzero := 0%Q;
  eq_one := fun q => Qeq_bool q 1%Q;
  fzero_not_one := eq_refl
|}.

(** ** Vocabulary of the closed forms and of the statements

    The pieces in which the behaviour of the loop is stated: an outcome is
    a value or an exception together with the console; the position of a
    labelled value is written without negative subscripts. *)

Section Semantics.

Context {F : PyFloat}.

Definition outcome (A : Type) : Type := (result A * list string)%type.

(** Where [words[index - floor(len/2)]] lands in a list of [len] words. *)
Definition value_position (index len : nat) : nat :=
  if index <? len / 2 then index + len - len / 2 else index - len / 2.

(** The variable a keyword assigns. *)
Definition store (keyword : string) (x : pyfloat) (st : locals) : locals :=
  if String.eqb keyword "ULEN" then set_ulen x st
  else if String.eqb keyword "GRAV" then set_grav x st
  else if String.eqb keyword "ISX" then set_isx x st
  else if String.eqb keyword "ISY" then set_isy x st
  else if String.eqb keyword "NPAN" then set_npan x st
  else st.

Definition echo (keyword value : string) : string :=
  (keyword ++ ": " ++ value)%string.

(** [i] is the position [words.index(k)] returns. *)
Definition first_index (words : list string) (k : string) (i : nat) : Prop :=
  nth_error words i = Some k /\
  forall j, j < i -> nth_error words j <> Some k.

(** Consecutive coordinates grouped three by three. *)
Fixpoint group3 (xs : list pyfloat) : list vertex :=
  match xs with
  | x :: y :: z :: xs' => (x, y, z) :: group3 xs'
  | _ => []
  end.

(** All the conversions of a list of words, [None] when one of them fails. *)
Fixpoint floats_of (ws : list string) : option (list pyfloat) :=
  match ws with
  | [] => Some []
  | w :: ws' =>
      match float_of_string w, floats_of ws' with
      | Some x, Some xs => Some (x :: xs)
      | _, _ => None
      end
  end.

Definition mirror_of (flag : pyfloat) (k : nat) : list host_op :=
  if eq_one flag then [modifier_add_MIRROR; use_axis_True k] else [].

Definition note_of (flag : pyfloat) (msg : string) : list string :=
  if eq_one flag then [msg] else [].

(** *** Vocabulary of the statements *)

(** The [i]-th quadrilateral: the four consecutive positions from [4 i]. *)
Definition quad (i : nat) : list nat := [4 * i; 4 * i + 1; 4 * i + 2; 4 * i + 3].

(** The mesh under construction is made of whole quadrilaterals. *)
Definition mesh_inv (st : locals) : Prop :=
  length (vertices st) = 4 * length (faces st) /\
  faces st = map quad (seq 0 (length (faces st))).

(** What a part of the loop leaves alone: the mesh and the flag. *)
Definition same_mesh (st st' : locals) : Prop :=
  vertices st' = vertices st /\ faces st' = faces st /\
  in_header st' = in_header st.

(** ... and the five labelled values. *)
Definition same_scalars (st st' : locals) : Prop :=
  ulen st' = ulen st /\ grav st' = grav st /\ isx st' = isx st /\
  isy st' = isy st /\ npan st' = npan st.

(** The lines before the first line of exactly one token: the part of the
    file scanned with [in_header] true. *)
Fixpoint header_region (lines : list string) : list string :=
  match lines with
  | [] => []
  | line :: lines' =>
      if length (words_of line) =? 1 then []
      else line :: header_region lines'
  end.

(** No token of the line is a keyword label. *)
Definition unlabelled (line : string) : bool :=
  forallb (fun k => negb (contains (words_of line) k)) keywords.

(** A line of the panel region that becomes a panel with coordinates
    [xs]. *)
Definition panel_line (line : string) (xs : list pyfloat) : Prop :=
  length (words_of line) = 12 /\ floats_of (words_of line) = Some xs.

Definition vertex_echo (line : string) : string :=
  ("Vertex Data: " ++ line)%string.

(** The lines after the first line of exactly one token: the part of the
    file scanned with [in_header] false. *)
Fixpoint panel_region (lines : list string) : list string :=
  match lines with
  | [] => []
  | line :: lines' =>
      if length (words_of line) =? 1 then lines'
      else panel_region lines'
  end.

(** [len(words) == 12] *)
Definition twelve (line : string) : bool := length (words_of line) =? 12.

(** The vertices a panel line contributes. *)
Definition panel_coords (line : string) : list vertex :=
  match floats_of (words_of line) with
  | Some xs => group3 xs
  | None => []
  end.

(** [float(w)] does not raise. *)
Definition numeric (w : string) : bool :=
  match float_of_string w with Some _ => true | None => false end.

(** The label [k] is absent from the line, or the word it reads is
    numeric. *)
Definition label_numeric (words : list string) (k : string) : bool :=
  match index_of words k with
  | None => true
  | Some i =>
      match nth_error words (value_position i (length words)) with
      | Some value => numeric value
      | None => true
      end
  end.

Definition labels_numeric (line : string) : bool :=
  forallb (label_numeric (words_of line)) keywords.

(** The line is not a panel line, or its twelve words are numeric. *)
Definition coordinates_numeric (line : string) : bool :=
  negb (twelve line) || forallb numeric (words_of line).

(** What decides whether the loop over the lines returns, from a state in
    the header region or in the panel region. *)
Definition lines_numeric (header : bool) (lines : list string) : bool :=
  if header
  then forallb labels_numeric (header_region lines)
       && forallb coordinates_numeric (panel_region lines)
  else forallb coordinates_numeric lines.

(** What a line holding the labels ULEN and GRAV and the words [v] and [g]
    does in the header region. *)
Definition ulen_grav_outcome (st : locals) (out : list string)
  (v g : string) : outcome locals :=
  match float_of_string v with
  | None => (Raise ValueError, (out ++ [echo "ULEN" v])%list)
  | Some x =>
      match float_of_string g with
      | None =>
          (Raise ValueError, (out ++ [echo "ULEN" v; echo "GRAV" g])%list)
      | Some y =>
          (Ok (set_grav y (set_ulen x st)),
           (out ++ [echo "ULEN" v; echo "GRAV" g])%list)
      end
  end.

(** Every character of the line is white space. *)
Definition blank (line : string) : bool :=
  forallb isspace (list_ascii_of_string line).

(** A word as [split] produces them. *)
Definition clean (w : string) : Prop :=
  w <> EmptyString /\
  forallb (fun c => negb (isspace c)) (list_ascii_of_string w) = true.

Definition success_message : string :=
  "WAMIT GDF file imported successfully.".

End Semantics.

(** ** Sample files, read with [QFloat] *)

Definition LF : string := String (ascii_of_nat 10) EmptyString.

Definition import_Q (lines : list string) : outcome (@blender_object QFloat) :=
  run (@import_wamit_gdf_operator QFloat lines).

(** A file in the layout the importer reads: labelled values, the panel
    count alone on its line, one panel per line. *)
Definition gdf_labelled : list string :=
  [ "1 body structure" ++ LF;
    "1 9.80665 ULEN GRAV" ++ LF;
    "0 0 ISX ISY" ++ LF;
    "2" ++ LF;
    "-7.5 -2.5 1.0 -6.5 -2.5 1.0 -6.5 -1.5 1.0 -7.5 -1.5 1.0 " ++ LF;
    "-6.5 -2.5 1.0 -5.5 -2.5 1.0 -5.5 -1.5 1.0 -6.5 -1.5 1.0 " ++ LF ]%string.

(** The loop variables and the console after the first five lines of
    [gdf_labelled] (the header region, its end and one panel), and after
    all of them. *)
Definition labelled_prefix_state : @locals QFloat :=
  Eval vm_compute in
    match for_lines (F := QFloat) (firstn 5 gdf_labelled) initial
                    ["Hello World"] with
    | (Ok st, _) => st
    | (Raise _, _) => initial
    end.

Definition labelled_prefix_console : list string :=
  Eval vm_compute in
    snd (for_lines (F := QFloat) (firstn 5 gdf_labelled) initial
                   ["Hello World"]).

Definition labelled_state : @locals QFloat :=
  Eval vm_compute in
    match for_lines (F := QFloat) gdf_labelled initial ["Hello World"] with
    | (Ok st, _) => st
    | (Raise _, _) => initial
    end.

Definition labelled_console : list string :=
  Eval vm_compute in
    snd (for_lines (F := QFloat) gdf_labelled initial ["Hello World"]).

Definition labelled_object : @blender_object QFloat :=
  Eval vm_compute in
    match import_Q gdf_labelled with
    | (Ok obj, _) => obj
    | (Raise _, _) => mkObject (F := QFloat) [] [] (0, 0, 0)%Q []
    end.

Definition labelled_output : list string :=
  Eval vm_compute in snd (import_Q gdf_labelled).

(** The unit square as one panel, on one line and on four lines. *)
Definition square : list (Q * Q * Q) :=
  [(0, 0, 0); (1, 0, 0); (1, 1, 0); (0, 1, 0)]%Q.

Definition square_line : string := ("0 0 0 1 0 0 1 1 0 0 1 0" ++ LF)%string.

Definition gdf_square_one_line : list string :=
  [ "unit square" ++ LF;
    "1 9.80665 ULEN GRAV" ++ LF;
    "0 0 ISX ISY" ++ LF;
    "1" ++ LF;
    "0 0 0 1 0 0 1 1 0 0 1 0" ++ LF ]%string.

Definition gdf_square_four_lines : list string :=
  [ "unit square" ++ LF;
    "1 9.80665 ULEN GRAV" ++ LF;
    "0 0 ISX ISY" ++ LF;
    "1" ++ LF;
    "0 0 0" ++ LF;
    "1 0 0" ++ LF;
    "1 1 0" ++ LF;
    "0 1 0" ++ LF ]%string.

(** The canonical positional layout, without labels. *)
Definition gdf_positional : list string :=
  [ "unit square" ++ LF;
    "1 9.80665" ++ LF;
    "1 0" ++ LF;
    "1" ++ LF;
    "0 0 0 1 0 0 1 1 0 0 1 0" ++ LF ]%string.



(** One panel whose four vertices are the same point. *)
Definition gdf_point_panel : list string :=
  [ "collapsed panel" ++ LF;
    "1 9.80665 ULEN GRAV" ++ LF;
    "0 0 ISX ISY" ++ LF;
    "1" ++ LF;
    "0 0 0 0 0 0 0 0 0 0 0 0" ++ LF ]%string.


(** A file whose second panel holds a word that is not a number. *)
Definition gdf_bad_coordinate : list string :=
  [ "unit square" ++ LF;
    "1 9.80665 ULEN GRAV" ++ LF;
    "1" ++ LF;
    "0 0 0 1 0 0 1 1 0 0 1 0" ++ LF;
    "0 0 1 1 0 1 1 1 1 0 1 one" ++ LF ]%string.

Definition bad_coordinate_console : list string :=
  ["Hello World"; "ULEN: 1"; "GRAV: 9.80665"; "End of header";
   vertex_echo square_line;
   vertex_echo ("0 0 1 1 0 1 1 1 1 0 1 one" ++ LF)%string].

(** The layout of the example given in the comments of the source: a
    blank line where the panel count would be. *)
Definition gdf_without_count : list string :=
  [ "1 body structure" ++ LF;
    "1 9.80665 ULEN GRAV" ++ LF;
    "0 0 ISX ISY" ++ LF;
    " " ++ LF;
    "-7.5 -2.5 1.0 -6.5 -2.5 1.0 -6.5 -1.5 1.0 -7.5 -1.5 1.0 " ++ LF ]%string.

Definition title_line : string := ("unit square" ++ LF)%string.
Definition count_line : string := ("1" ++ LF)%string.
Definition values_first_line : string := ("1 9.80665 ULEN GRAV" ++ LF)%string.
Definition labels_first_line : string := ("ULEN GRAV 1 9.80665" ++ LF)%string.
Definition labels_only_line : string := ("ULEN GRAV" ++ LF)%string.

Definition labelled_prefix_object : @blender_object QFloat :=
  Eval vm_compute in
    match import_Q (firstn 5 gdf_labelled) with
    | (Ok obj, _) => obj
    | (Raise _, _) => mkObject (F := QFloat) [] [] (0, 0, 0)%Q []
    end.

Definition labelled_prefix_output : list string :=
  Eval vm_compute in snd (import_Q (firstn 5 gdf_labelled)).

(** One file under three first lines: a title of three words, a title of
    one word, and a title that contains a label. *)
Definition titled (title : string) : list string :=
  [ (title ++ LF)%string;
    values_first_line;
    ("1 0 ISX ISY" ++ LF)%string;
    count_line;
    square_line ].

Definition gdf_three_word_title : list string := titled "1 body structure".
Definition gdf_one_word_title : list string := titled "Barge".
Definition gdf_label_in_title : list string := titled "ULEN test body".

(** * Properties *)

Section Properties.

Context {F : PyFloat}.

(** ** The monad and the frame of each construct *)

Ltac run_m :=
  unfold bind, ret, raise, print, float, list_index in *.

Lemma same_mesh_refl st : same_mesh st st.
Proof. now repeat split. Qed.

Lemma same_mesh_trans st1 st2 st3 :
  same_mesh st1 st2 -> same_mesh st2 st3 -> same_mesh st1 st3.
Proof.
  unfold same_mesh. intros (a & b & c) (d & e & f).
  repeat split; congruence.
Qed.

Lemma same_scalars_refl st : same_scalars st st.
Proof. now repeat split. Qed.

Lemma same_scalars_trans st1 st2 st3 :
  same_scalars st1 st2 -> same_scalars st2 st3 -> same_scalars st1 st3.
Proof.
  unfold same_scalars. intros (a & b & c & d & e) (a' & b' & c' & d' & e').
  repeat split; congruence.
Qed.

Lemma assign_same_mesh keyword value st out st' out' :
  assign keyword value st out = (Ok st', out') -> same_mesh st st'.
Proof.
  unfold assign.
  repeat match goal with
         | |- context [String.eqb ?a ?b] => destruct (String.eqb a b)
         end;
    run_m; destruct (float_of_string value);
    intros H; inversion H; subst; apply same_mesh_refl || now repeat split.
Qed.

Lemma getitem_cases (l : list string) (i : Z) (out : list string) :
  (exists w, In w l /\ getitem l i out = (Ok w, out)) \/
  getitem l i out = (Raise IndexError, out).
Proof.
  unfold getitem.
  destruct ((0 <=? _) && _)%Z; [|now right].
  destruct (nth_error l _) as [w|] eqn:E; [|now right].
  left. exists w. split; [eapply nth_error_In; eauto | reflexivity].
Qed.

Lemma scan_keyword_same_mesh words st keyword out st' out' :
  scan_keyword words st keyword out = (Ok st', out') -> same_mesh st st'.
Proof.
  unfold scan_keyword.
  destruct (contains words keyword).
  - unfold bind at 1, list_index.
    destruct (index_of words keyword) as [i|]; unfold ret, raise;
      [|discriminate].
    unfold bind at 1.
    destruct (getitem_cases words (Z.of_nat i - Z.of_nat (length words / 2))
                out) as [(w & _ & E) | E]; rewrite E; [|discriminate].
    apply assign_same_mesh.
  - unfold ret. intros H; inversion H; subst. apply same_mesh_refl.
Qed.

Lemma for_keywords_same_mesh ks words st out st' out' :
  for_keywords ks words st out = (Ok st', out') -> same_mesh st st'.
Proof.
  revert st out. induction ks as [|k ks IH]; intros st out; simpl.
  - unfold ret. intros H; inversion H; subst. apply same_mesh_refl.
  - unfold bind at 1.
    destruct (scan_keyword words st k out) as [[st1|e] out1] eqn:E;
      [|discriminate].
    intros H. eapply same_mesh_trans.
    + eapply scan_keyword_same_mesh; eauto.
    + eapply IH; eauto.
Qed.

(** ** Closed forms *)

Lemma half_le (n : nat) : n / 2 <= n.
Proof. apply Nat.Div0.div_le_upper_bound. lia. Qed.

Lemma index_of_first words k i :
  index_of words k = Some i <-> first_index words k i.
Proof.
  unfold first_index. revert i.
  induction words as [|w ws IH]; intros i; simpl.
  - split; [discriminate|]. intros [H _]. now destruct i.
  - destruct (String.eqb_spec w k) as [->|Hne].
    + split.
      * intros H; inversion H; subst. split; [reflexivity|]. lia.
      * intros [H1 H2]. destruct i as [|i]; [reflexivity|].
        exfalso. apply (H2 0); [lia | reflexivity].
    + destruct (index_of ws k) as [i0|].
      * split.
        -- intros H; inversion H; subst.
           destruct (proj1 (IH i0) eq_refl) as [E1 E2].
           split; [exact E1|].
           intros [|j] Hj; simpl; [congruence | apply E2; lia].
        -- intros [H1 H2]. destruct i as [|i]; simpl in H1; [congruence|].
           f_equal. assert (Some i0 = Some i) as Hi; [|congruence].
           apply IH. split; [exact H1|].
           intros j Hj. apply (H2 (S j)). lia.
      * split; [discriminate|].
        intros [H1 H2]. destruct i as [|i]; simpl in H1; [congruence|].
        assert (None = Some i) as Hi; [|discriminate].
        apply IH. split; [exact H1|].
        intros j Hj. apply (H2 (S j)). lia.
Qed.

Lemma contains_In words k : contains words k = true <-> In k words.
Proof.
  induction words as [|w ws IH]; simpl.
  - split; [discriminate | tauto].
  - destruct (String.eqb_spec w k) as [->|Hne].
    + split; auto.
    + rewrite IH. split; [tauto|]. intros [H|H]; [congruence | exact H].
Qed.

Lemma contains_index words k :
  contains words k = true <-> exists i, index_of words k = Some i.
Proof.
  rewrite contains_In, In_iff_nth_error.
  split.
  - intros [n Hn].
    induction words as [|w ws IH] in n, Hn |- *; [now destruct n|].
    simpl. destruct (String.eqb w k) eqn:E; [now exists 0|].
    destruct n as [|n]; simpl in Hn.
    + inversion Hn; subst. now rewrite String.eqb_refl in E.
    + destruct (IH _ Hn) as [i Hi]. rewrite Hi. now exists (S i).
  - intros [i Hi]. apply index_of_first in Hi as [Hi _]. now exists i.
Qed.

Lemma index_of_lt words k i : index_of words k = Some i -> i < length words.
Proof.
  intros H. apply index_of_first in H as [H _].
  apply nth_error_Some. congruence.
Qed.

Lemma value_position_lt i n : i < n -> value_position i n < n.
Proof.
  intros H. unfold value_position. pose proof (half_le n).
  destruct (Nat.ltb_spec i (n / 2)); lia.
Qed.

(** The subscript [index - floor(len/2)], negative or not, always reads a
    word of the line. *)
Lemma getitem_value words i out :
  i < length words ->
  exists value,
    nth_error words (value_position i (length words)) = Some value /\
    getitem words (Z.of_nat i - Z.of_nat (length words / 2)) out
    = (Ok value, out).
Proof.
  intros Hi.
  pose proof (value_position_lt _ _ Hi) as Hp.
  destruct (nth_error words (value_position i (length words)))
    as [value|] eqn:E; [|apply nth_error_None in E; lia].
  exists value. split; [reflexivity|].
  unfold getitem. pose proof (half_le (length words)) as Hh.
  set (h := length words / 2) in *.
  assert (Z.to_nat
            (if (Z.of_nat i - Z.of_nat h <? 0)%Z
             then (Z.of_nat i - Z.of_nat h + Z.of_nat (length words))%Z
             else (Z.of_nat i - Z.of_nat h)%Z)
          = value_position i (length words)) as Hz.
  { unfold value_position. fold h.
    destruct (Z.ltb_spec (Z.of_nat i - Z.of_nat h) 0);
      destruct (Nat.ltb_spec i h); lia. }
  assert (((0 <=? (if (Z.of_nat i - Z.of_nat h <? 0)%Z
                   then (Z.of_nat i - Z.of_nat h + Z.of_nat (length words))%Z
                   else (Z.of_nat i - Z.of_nat h)%Z))
           && ((if (Z.of_nat i - Z.of_nat h <? 0)%Z
                then (Z.of_nat i - Z.of_nat h + Z.of_nat (length words))%Z
                else (Z.of_nat i - Z.of_nat h)%Z) <? Z.of_nat (length words)))%Z
          = true) as Hb.
  { apply andb_true_iff. split.
    - apply Z.leb_le. destruct (Z.ltb_spec (Z.of_nat i - Z.of_nat h) 0); lia.
    - apply Z.ltb_lt. destruct (Z.ltb_spec (Z.of_nat i - Z.of_nat h) 0); lia. }
  cbv zeta. rewrite Hb, Hz, E. reflexivity.
Qed.

Lemma assign_keyword k value st out :
  In k keywords ->
  assign k value st out
  = match float_of_string value with
    | Some x => (Ok (store k x st), (out ++ [echo k value])%list)
    | None => (Raise ValueError, (out ++ [echo k value])%list)
    end.
Proof.
  intros Hk. unfold keywords in Hk. simpl in Hk.
  decompose [or] Hk; subst; try contradiction;
    unfold assign, store, echo; simpl; run_m;
    destruct (float_of_string value); reflexivity.
Qed.

(** One keyword of the header loop, in closed form. *)
Lemma scan_keyword_eq words st k out :
  In k keywords ->
  scan_keyword words st k out
  = match index_of words k with
    | None => (Ok st, out)
    | Some i =>
        match nth_error words (value_position i (length words)) with
        | Some value =>
            match float_of_string value with
            | Some x => (Ok (store k x st), (out ++ [echo k value])%list)
            | None => (Raise ValueError, (out ++ [echo k value])%list)
            end
        | None => (Raise IndexError, out)
        end
    end.
Proof.
  intros Hk. unfold scan_keyword.
  destruct (contains words k) eqn:Ec.
  - apply contains_index in Ec as [i Hi]. rewrite Hi.
    unfold bind at 1, list_index. rewrite Hi. unfold ret at 1.
    unfold bind at 1.
    destruct (getitem_value words i out (index_of_lt _ _ _ Hi))
      as (value & Hv & Hg).
    rewrite Hg, Hv. now apply assign_keyword.
  - destruct (index_of words k) as [i|] eqn:Hi; [|reflexivity].
    assert (contains words k = true) by (apply contains_index; eauto).
    congruence.
Qed.

Lemma floats_of_length ws xs :
  floats_of ws = Some xs -> length xs = length ws.
Proof.
  revert xs. induction ws as [|w ws IH]; intros xs; simpl.
  - intros H; now inversion H.
  - destruct (float_of_string w); [|discriminate].
    destruct (floats_of ws) as [ys|]; [|discriminate].
    intros H; inversion H; subst. simpl. f_equal. now apply IH.
Qed.

Lemma floats_of_Forall2 ws xs :
  floats_of ws = Some xs <->
  Forall2 (fun w x => float_of_string w = Some x) ws xs.
Proof.
  revert xs. induction ws as [|w ws IH]; intros xs; simpl.
  - split.
    + intros H; inversion H; constructor.
    + intros H; now inversion H.
  - split.
    + destruct (float_of_string w) eqn:E; [|discriminate].
      destruct (floats_of ws) as [ys|]; [|discriminate].
      intros H; inversion H; subst. constructor; [exact E | now apply IH].
    + intros H; inversion H as [|? y ? ys Hy Hys]; subst.
      rewrite Hy. apply IH in Hys. now rewrite Hys.
Qed.

Lemma floats_of_None ws :
  floats_of ws = None <-> Exists (fun w => float_of_string w = None) ws.
Proof.
  induction ws as [|w ws IH]; simpl.
  - split; [discriminate | intros H; inversion H].
  - destruct (float_of_string w) eqn:E.
    + destruct (floats_of ws) as [ys|].
      * split; [discriminate|].
        intros H; inversion H; subst; [congruence|].
        apply IH in H1. discriminate.
      * split; [|reflexivity]. intros _. right. now apply IH.
    + split; [|reflexivity]. intros _. now left.
Qed.

Lemma group3_length xs : length xs = 12 -> length (group3 xs) = 4.
Proof.
  intros H.
  do 12 (destruct xs as [|? xs]; [discriminate|]).
  destruct xs; [reflexivity | discriminate].
Qed.

(** The comprehension over [range(0, 12, 3)] on a line of twelve words. *)
Lemma triples_12 words out :
  length words = 12 ->
  triples words [0; 3; 6; 9] out
  = match floats_of words with
    | Some xs => (Ok (group3 xs), out)
    | None => (Raise ValueError, out)
    end.
Proof.
  intros H.
  destruct words as [|w0 [|w1 [|w2 [|w3 [|w4 [|w5 [|w6 [|w7 [|w8 [|w9
    [|w10 [|w11 [|w12 ws]]]]]]]]]]]]]; try discriminate. clear H.
  cbv -[float_of_string].
  destruct (float_of_string w0); cbv -[float_of_string]; [|reflexivity].
  destruct (float_of_string w1); cbv -[float_of_string]; [|reflexivity].
  destruct (float_of_string w2); cbv -[float_of_string]; [|reflexivity].
  destruct (float_of_string w3); cbv -[float_of_string]; [|reflexivity].
  destruct (float_of_string w4); cbv -[float_of_string]; [|reflexivity].
  destruct (float_of_string w5); cbv -[float_of_string]; [|reflexivity].
  destruct (float_of_string w6); cbv -[float_of_string]; [|reflexivity].
  destruct (float_of_string w7); cbv -[float_of_string]; [|reflexivity].
  destruct (float_of_string w8); cbv -[float_of_string]; [|reflexivity].
  destruct (float_of_string w9); cbv -[float_of_string]; [|reflexivity].
  destruct (float_of_string w10); cbv -[float_of_string]; [|reflexivity].
  destruct (float_of_string w11); cbv -[float_of_string]; reflexivity.
Qed.

(** One iteration of the loop over the lines, in closed form. *)
Lemma body_eq st line out :
  body st line out
  = if in_header st then
      if length (words_of line) =? 1 then
        (Ok (set_in_header false st), (out ++ ["End of header"])%list)
      else for_keywords keywords (words_of line) st out
    else
      if length (words_of line) =? 12 then
        match floats_of (words_of line) with
        | Some xs =>
            (Ok (set_mesh (vertices st ++ group3 xs)%list
                          (faces st ++ [seq (length (vertices st)) 4])%list
                          st),
             (out ++ [vertex_echo line])%list)
        | None => (Raise ValueError, (out ++ [vertex_echo line])%list)
        end
      else (Ok st, out).
Proof.
  unfold body.
  destruct (in_header st).
  - destruct (length (words_of line) =? 1); reflexivity.
  - destruct (Nat.eqb_spec (length (words_of line)) 12) as [H12|]; [|reflexivity].
    unfold bind at 1, print. unfold bind at 1.
    rewrite (triples_12 _ _ H12).
    destruct (floats_of (words_of line)) as [xs|] eqn:E; [|reflexivity].
    unfold ret, vertex_echo. f_equal. f_equal. f_equal. f_equal.
    rewrite length_app, group3_length
      by (rewrite (floats_of_length _ _ E); exact H12).
    unfold range. do 2 f_equal; lia.
Qed.

Lemma for_lines_cons line lines st out :
  for_lines (line :: lines) st out
  = match body st line out with
    | (Ok st', out') => for_lines lines st' out'
    | (Raise e, out') => (Raise e, out')
    end.
Proof. reflexivity. Qed.

(** The whole function, in closed form. *)
Lemma import_eq lines :
  run (import_wamit_gdf_operator lines)
  = match for_lines lines initial ["Hello World"] with
    | (Ok st, out) =>
        (Ok (mkObject (vertices st) (faces st) (ulen st, ulen st, ulen st)
                      (mirror_of (isx st) 0 ++ mirror_of (isy st) 1)%list),
         (out ++ note_of (isx st) "X = 0 is a geometric plane of symmetry"
              ++ note_of (isy st) "Y = 0 is a geometric plane of symmetry"
              ++ ["WAMIT GDF file imported successfully."])%list)
    | (Raise e, out) => (Raise e, out)
    end.
Proof.
  unfold run, import_wamit_gdf_operator.
  unfold bind at 1, print. simpl app. unfold bind at 1.
  destruct (for_lines lines initial ["Hello World"]) as [[st|e] out];
    [|reflexivity].
  unfold finish, mirror_if, mirror_of, note_of.
  destruct (eq_one (isx st)); destruct (eq_one (isy st));
    unfold bind, ret, print; simpl;
    rewrite <- ?app_assoc; simpl; rewrite ?app_nil_r; reflexivity.
Qed.

(** A property of the loop variables kept by every iteration holds after
    the loop. *)
Lemma for_lines_invariant (P : locals -> Prop) :
  (forall st line out st' out',
      P st -> body st line out = (Ok st', out') -> P st') ->
  forall lines st out st' out',
    P st -> for_lines lines st out = (Ok st', out') -> P st'.
Proof.
  intros Hbody lines.
  induction lines as [|line lines IH]; intros st out st' out' HP.
  - simpl. unfold ret. intros H; inversion H; subst. exact HP.
  - rewrite for_lines_cons.
    destruct (body st line out) as [[st1|e] out1] eqn:E; [|discriminate].
    apply IH. eapply Hbody; eauto.
Qed.

(** ** The mesh invariant *)

Lemma map_quad_snoc n :
  map quad (seq 0 (S n)) = (map quad (seq 0 n) ++ [quad n])%list.
Proof. now rewrite seq_S, map_app. Qed.

Lemma body_mesh_inv st line out st' out' :
  mesh_inv st -> body st line out = (Ok st', out') -> mesh_inv st'.
Proof.
  unfold mesh_inv. intros [Hlen Hfaces]. rewrite body_eq.
  destruct (in_header st) eqn:Eh.
  - destruct (length (words_of line) =? 1).
    + intros H; inversion H; subst. simpl. now split.
    + intros H. apply for_keywords_same_mesh in H as (Hv & Hf & _).
      now rewrite Hv, Hf.
  - destruct (Nat.eqb_spec (length (words_of line)) 12) as [H12|].
    + destruct (floats_of (words_of line)) as [xs|] eqn:E; [|discriminate].
      intros H; inversion H; subst; clear H. simpl.
      rewrite !length_app, group3_length
        by (rewrite (floats_of_length _ _ E); exact H12).
      simpl. split; [lia|].
      replace (length (faces st) + 1) with (S (length (faces st))) by lia.
      rewrite map_quad_snoc, <- Hfaces. f_equal.
      rewrite Hlen. unfold quad. simpl. repeat f_equal; lia.
    + intros H; inversion H; subst. now split.
Qed.

Lemma initial_mesh_inv : mesh_inv initial.
Proof. now split. Qed.

Lemma for_lines_mesh_inv lines st out st' out' :
  mesh_inv st -> for_lines lines st out = (Ok st', out') -> mesh_inv st'.
Proof. apply (for_lines_invariant mesh_inv). apply body_mesh_inv. Qed.

Lemma nth_error_map_quad n i :
  i < n -> nth_error (map quad (seq 0 n)) i = Some (quad i).
Proof.
  intros H. rewrite nth_error_map, nth_error_seq.
  destruct (Nat.ltb_spec i n); [reflexivity | lia].
Qed.

Lemma In_quad k i : In k (quad i) <-> 4 * i <= k < 4 * i + 4.
Proof. unfold quad. simpl. lia. Qed.

(** ** The header region *)

Lemma index_of_absent words k : ~ In k words -> index_of words k = None.
Proof.
  intros H. destruct (index_of words k) as [i|] eqn:E; [|reflexivity].
  exfalso. apply H, contains_In, contains_index. eauto.
Qed.

Lemma for_keywords_absent ks words st out :
  incl ks keywords ->
  (forall k, In k ks -> ~ In k words) ->
  for_keywords ks words st out = (Ok st, out).
Proof.
  induction ks as [|k ks IH]; intros Hincl Habs; [reflexivity|].
  simpl. unfold bind at 1.
  rewrite scan_keyword_eq by (apply Hincl; now left).
  rewrite index_of_absent by (apply Habs; now left).
  apply IH.
  - intros x Hx. apply Hincl. now right.
  - intros x Hx. apply Habs. now right.
Qed.

(** Once out of the header the flag stays down and the labelled values are
    never written again. *)
Lemma panel_region_frame lines st out st' out' :
  in_header st = false ->
  for_lines lines st out = (Ok st', out') ->
  in_header st' = false /\ same_scalars st st'.
Proof.
  revert st out. induction lines as [|line lines IH]; intros st out Hh.
  - simpl. unfold ret. intros H; inversion H; subst.
    split; [exact Hh | apply same_scalars_refl].
  - rewrite for_lines_cons, body_eq, Hh.
    destruct (length (words_of line) =? 12).
    + destruct (floats_of (words_of line)) as [xs|]; [|discriminate].
      intros H. apply IH in H as [H1 H2]; [|exact Hh].
      split; [exact H1|]. exact H2.
    + apply IH. exact Hh.
Qed.

Lemma header_flag lines st out st' out' :
  for_lines lines st out = (Ok st', out') ->
  (in_header st' = false <->
   in_header st = false \/
   Exists (fun line => length (words_of line) = 1) lines).
Proof.
  revert st out. induction lines as [|line lines IH]; intros st out.
  - simpl. unfold ret. intros H; inversion H; subst.
    split; [now left|]. intros [H1|H1]; [exact H1 | inversion H1].
  - rewrite for_lines_cons.
    destruct (body st line out) as [[st1|e] out1] eqn:E; [|discriminate].
    intros H. rewrite (IH _ _ H). clear IH H.
    rewrite body_eq in E. rewrite Exists_cons.
    destruct (in_header st) eqn:Eh.
    + destruct (Nat.eqb_spec (length (words_of line)) 1) as [H1|H1].
      * inversion E; subst. simpl. tauto.
      * apply for_keywords_same_mesh in E as (_ & _ & E).
        rewrite E, Eh.
        split; [intros [H|H]; [discriminate | auto] |].
        intros [H|[H|H]]; [discriminate | contradiction | auto].
    + assert (in_header st1 = false) as ->; [|tauto].
      destruct (length (words_of line) =? 12).
      * destruct (floats_of (words_of line)); inversion E; subst. exact Eh.
      * inversion E; subst. exact Eh.
Qed.

Lemma unlabelled_absent line k :
  unlabelled line = true -> In k keywords -> ~ In k (words_of line).
Proof.
  unfold unlabelled. rewrite forallb_forall. intros H Hk Hin.
  apply H in Hk. apply contains_In in Hin. rewrite Hin in Hk. discriminate.
Qed.

Lemma unlabelled_header_frame lines st out st' out' :
  forallb unlabelled (header_region lines) = true ->
  for_lines lines st out = (Ok st', out') ->
  same_scalars st st'.
Proof.
  revert st out. induction lines as [|line lines IH]; intros st out Hu.
  - simpl. unfold ret. intros H; inversion H; subst.
    apply same_scalars_refl.
  - destruct (in_header st) eqn:Eh.
    + rewrite for_lines_cons, body_eq, Eh. simpl in Hu.
      destruct (length (words_of line) =? 1).
      * intros H.
        apply panel_region_frame in H as [_ H]; [exact H | reflexivity].
      * simpl in Hu. apply andb_true_iff in Hu as [Hline Hrest].
        rewrite for_keywords_absent;
          [ | apply incl_refl
            | intros k Hk; now apply unlabelled_absent ].
        now apply IH.
    + intros H. now apply panel_region_frame in H as [_ H].
Qed.

(** ** Claims on the mesh and on the header *)

(** C10.  After the loop has processed any prefix of the lines, there are
    four vertices per face, the i-th face lists the positions 4i, 4i+1,
    4i+2, 4i+3, every position named by a face is a position of the vertex
    list, and every vertex is named by exactly one face. *)
Theorem faces_tile_vertices_on_every_prefix
  (lines : list string) (n : nat) (out0 : list string)
  (st : locals) (out : list string) :
  for_lines (firstn n lines) initial out0 = (Ok st, out) ->
  length (vertices st) = 4 * length (faces st) /\
  (forall i, i < length (faces st) ->
     nth_error (faces st) i = Some [4 * i; 4 * i + 1; 4 * i + 2; 4 * i + 3]) /\
  (forall face k, In face (faces st) -> In k face ->
     k < length (vertices st)) /\
  (forall v, v < length (vertices st) ->
     exists i,
       (exists face, nth_error (faces st) i = Some face /\ In v face) /\
       (forall j face, nth_error (faces st) j = Some face -> In v face ->
          j = i)).
Proof.
  intros H.
  apply for_lines_mesh_inv in H as [Hlen Hfaces]; [|apply initial_mesh_inv].
  set (m := length (faces st)) in *.
  assert (forall i face, nth_error (faces st) i = Some face ->
                         i < m /\ face = quad i) as Hnth.
  { intros i face Hi.
    assert (i < m) as Him by (apply nth_error_Some; congruence).
    split; [exact Him|].
    rewrite Hfaces, nth_error_map_quad in Hi by exact Him. congruence. }
  split; [exact Hlen|]. split; [|split].
  - intros i Hi. rewrite Hfaces. now apply nth_error_map_quad.
  - intros face k Hf Hk.
    apply In_nth_error in Hf as [i Hi].
    apply Hnth in Hi as [Him ->]. apply In_quad in Hk. lia.
  - intros v Hv. exists (v / 4).
    pose proof (Nat.div_mod_eq v 4) as Hdm.
    pose proof (Nat.mod_upper_bound v 4 ltac:(lia)) as Hmod.
    split.
    + exists (quad (v / 4)). split.
      * rewrite Hfaces. apply nth_error_map_quad. lia.
      * apply In_quad. lia.
    + intros j face Hj Hin. apply Hnth in Hj as [_ ->].
      apply In_quad in Hin. lia.
Qed.

(** C7.  Every face of the imported mesh names exactly four positions, and
    each of them holds a vertex (a triple of floats): a stored panel has
    exactly four vertices, whatever the layout of the lines. *)
Theorem every_panel_has_four_vertices
  (lines : list string) (obj : blender_object) (out : list string) :
  run (import_wamit_gdf_operator lines) = (Ok obj, out) ->
  Forall (fun face =>
            length face = 4 /\
            exists v1 v2 v3 v4 : vertex,
              map (nth_error (mesh_vertices obj)) face
              = [Some v1; Some v2; Some v3; Some v4])
         (mesh_faces obj).
Proof.
  rewrite import_eq.
  destruct (for_lines lines initial ["Hello World"]) as [[st|e] out1] eqn:E;
    [|discriminate].
  intros H; inversion H; subst; clear H. simpl.
  apply for_lines_mesh_inv in E as [Hlen Hfaces]; [|apply initial_mesh_inv].
  apply Forall_forall. intros face Hf.
  rewrite Hfaces in Hf. apply in_map_iff in Hf as (i & <- & Hi).
  apply in_seq in Hi. split; [reflexivity|].
  assert (forall k, k < 4 -> exists v, nth_error (vertices st) (4 * i + k) = Some v)
    as Hv.
  { intros k Hk.
    destruct (nth_error (vertices st) (4 * i + k)) as [v|] eqn:Ev; [eauto|].
    apply nth_error_None in Ev. lia. }
  destruct (Hv 0 ltac:(lia)) as [v1 E1]. destruct (Hv 1 ltac:(lia)) as [v2 E2].
  destruct (Hv 2 ltac:(lia)) as [v3 E3]. destruct (Hv 3 ltac:(lia)) as [v4 E4].
  exists v1, v2, v3, v4. unfold quad. cbn [map].
  rewrite Nat.add_0_r in E1. now rewrite E1, E2, E3, E4.
Qed.

(** The flag [in_header] is down after the loop exactly when some line of
    the file has exactly one token. *)
Lemma header_ends_at_a_single_token_line
  (lines : list string) (out0 : list string) (st : locals)
  (out : list string) :
  for_lines lines initial out0 = (Ok st, out) ->
  (in_header st = false <->
   Exists (fun line => length (words_of line) = 1) lines).
Proof.
  intros H. rewrite (header_flag _ _ _ _ _ H). simpl.
  split; [intros [H1|H1]; [discriminate | exact H1] | now right].
Qed.

(** C9.  When no line of the header region carries one of the labels ULEN,
    GRAV, ISX, ISY, NPAN, the five values still hold 0.0 after the loop, the
    object is scaled by (0.0, 0.0, 0.0) and no mirror modifier is added. *)
Theorem unlabelled_header_keeps_defaults (lines : list string) :
  forallb unlabelled (header_region lines) = true ->
  (forall out0 st out,
      for_lines lines initial out0 = (Ok st, out) ->
      ulen st = fzero /\ grav st = fzero /\ isx st = fzero /\
      isy st = fzero /\ npan st = fzero) /\
  (forall obj out,
      run (import_wamit_gdf_operator lines) = (Ok obj, out) ->
      scale obj = (fzero, fzero, fzero) /\ mirror_ops obj = []).
Proof.
  intros Hu. split.
  - intros out0 st out H.
    apply (unlabelled_header_frame _ _ _ _ _ Hu) in H. exact H.
  - intros obj out. rewrite import_eq.
    destruct (for_lines lines initial ["Hello World"]) as [[st|e] out1] eqn:E;
      [|discriminate].
    apply (unlabelled_header_frame _ _ _ _ _ Hu) in E
      as (Hu1 & _ & Hx & Hy & _).
    intros H; inversion H; subst; clear H. simpl in *.
    unfold mirror_of. rewrite Hu1, Hx, Hy, fzero_not_one. now split.
Qed.

(** ** Files with a header region followed by panel lines *)

Lemma for_lines_app l1 l2 st out :
  for_lines (l1 ++ l2) st out
  = match for_lines l1 st out with
    | (Ok st', out') => for_lines l2 st' out'
    | (Raise e, out') => (Raise e, out')
    end.
Proof.
  revert st out. induction l1 as [|line l1 IH]; intros st out.
  - reflexivity.
  - simpl app. rewrite !for_lines_cons.
    destruct (body st line out) as [[st1|e] out1]; [apply IH | reflexivity].
Qed.

(** While the flag is up no panel has been read. *)
Lemma header_only_mesh lines st out st' out' :
  for_lines lines st out = (Ok st', out') ->
  in_header st' = true ->
  same_mesh st st'.
Proof.
  revert st out. induction lines as [|line lines IH]; intros st out.
  - simpl. unfold ret. intros H; inversion H; subst. intros _.
    apply same_mesh_refl.
  - rewrite for_lines_cons.
    destruct (body st line out) as [[st1|e] out1] eqn:E; [|discriminate].
    intros H Hup.
    destruct (in_header st1) eqn:E1.
    + eapply same_mesh_trans; [|eapply IH; eauto].
      rewrite body_eq in E.
      destruct (in_header st) eqn:Eh.
      * destruct (length (words_of line) =? 1).
        -- inversion E; subst. discriminate.
        -- eapply for_keywords_same_mesh; eauto.
      * destruct (length (words_of line) =? 12).
        -- destruct (floats_of (words_of line)); inversion E; subst.
           simpl in E1. congruence.
        -- inversion E; subst. congruence.
    + apply panel_region_frame in H as [H _]; [congruence | exact E1].
Qed.

(** Numeric panel lines are all stored, in order. *)
Lemma panels_stored ls xss st out :
  in_header st = false ->
  Forall2 panel_line ls xss ->
  exists st',
    for_lines ls st out = (Ok st', (out ++ map vertex_echo ls)%list) /\
    vertices st' = (vertices st ++ concat (map group3 xss))%list /\
    length (faces st') = length (faces st) + length ls /\
    same_scalars st st'.
Proof.
  intros Hh H. revert st out Hh.
  induction H as [|line xs ls xss [H12 Hxs] _ IH]; intros st out Hh.
  - exists st. simpl. rewrite !app_nil_r.
    repeat split; auto.
  - rewrite for_lines_cons, body_eq, Hh, H12, Hxs. simpl Nat.eqb. cbv iota.
    edestruct IH as (st' & Hrun & Hv & Hf & Hs);
      [ | exists st'; rewrite Hrun ]; [exact Hh|].
    simpl in Hv, Hf, Hs. rewrite length_app in Hf. simpl in Hf.
    split; [|split; [|split]].
    + simpl. now rewrite <- app_assoc.
    + simpl. now rewrite Hv, <- app_assoc.
    + simpl. lia.
    + exact Hs.
Qed.

Lemma header_then_panels hdr e ls xss sth outh out0 :
  for_lines hdr initial out0 = (Ok sth, outh) ->
  in_header sth = true ->
  length (words_of e) = 1 ->
  Forall2 panel_line ls xss ->
  exists st,
    for_lines (hdr ++ e :: ls) initial out0
    = (Ok st, (outh ++ ["End of header"] ++ map vertex_echo ls)%list) /\
    vertices st = concat (map group3 xss) /\
    faces st = map quad (seq 0 (length ls)) /\
    same_scalars sth st.
Proof.
  intros Hhdr Hup He Hls.
  destruct (header_only_mesh _ _ _ _ _ Hhdr Hup) as (Hv0 & Hf0 & _).
  simpl in Hv0, Hf0.
  destruct (panels_stored ls xss (set_in_header false sth)
              (outh ++ ["End of header"])%list eq_refl Hls)
    as (st & Hrun & Hv & Hf & Hs).
  exists st.
  assert (for_lines (hdr ++ e :: ls) initial out0
          = (Ok st, (outh ++ ["End of header"] ++ map vertex_echo ls)%list))
    as Hall.
  { rewrite for_lines_app, Hhdr, for_lines_cons, body_eq, Hup, He.
    simpl Nat.eqb. cbv iota. rewrite Hrun. now rewrite <- app_assoc. }
  split; [exact Hall|].
  simpl in Hv, Hf. rewrite Hv0 in Hv. rewrite Hf0 in Hf. simpl in Hv, Hf.
  split; [exact Hv|]. split; [|exact Hs].
  apply for_lines_mesh_inv in Hall as [_ Hq]; [|apply initial_mesh_inv].
  now rewrite Hq, Hf.
Qed.

(** In the panel region, lines that do not have exactly twelve tokens are
    skipped one by one: nothing is stored, nothing is printed and nothing
    is carried over to the next line. *)
Lemma lines_without_twelve_tokens_add_nothing ls st out :
  in_header st = false ->
  Forall (fun line => length (words_of line) <> 12) ls ->
  for_lines ls st out = (Ok st, out).
Proof.
  intros Hh H. induction H as [|line ls H12 _ IH]; [reflexivity|].
  rewrite for_lines_cons, body_eq, Hh.
  apply Nat.eqb_neq in H12. rewrite H12. exact IH.
Qed.

(** C5, as amended.  Panels are not checked geometrically: after any header
    region and the one-token line that ends it, every line of twelve
    numeric tokens is stored as a panel, whatever its coordinates, and the
    import returns. *)
Theorem panels_are_stored_without_area_check
  (hdr : list string) (e : string) (ls : list string)
  (xss : list (list pyfloat)) (sth : locals) (outh : list string) :
  for_lines hdr initial ["Hello World"] = (Ok sth, outh) ->
  in_header sth = true ->
  length (words_of e) = 1 ->
  Forall2 panel_line ls xss ->
  run (import_wamit_gdf_operator (hdr ++ e :: ls))
  = (Ok (mkObject (concat (map group3 xss))
                  (map quad (seq 0 (length ls)))
                  (ulen sth, ulen sth, ulen sth)
                  (mirror_of (isx sth) 0 ++ mirror_of (isy sth) 1)%list),
     (outh ++ ["End of header"] ++ map vertex_echo ls
           ++ note_of (isx sth) "X = 0 is a geometric plane of symmetry"
           ++ note_of (isy sth) "Y = 0 is a geometric plane of symmetry"
           ++ ["WAMIT GDF file imported successfully."])%list).
Proof.
  intros Hhdr Hup He Hls.
  destruct (header_then_panels _ _ _ _ _ _ _ Hhdr Hup He Hls)
    as (st & Hrun & Hv & Hf & Hu & _ & Hx & Hy & _).
  rewrite import_eq, Hrun, Hv, Hf, Hu, Hx, Hy.
  f_equal. now rewrite <- !app_assoc.
Qed.

(** ** Labelled header lines *)

Lemma index_of_skip w ws k :
  w <> k ->
  index_of (w :: ws) k = option_map S (index_of ws k).
Proof.
  intros H. simpl. apply String.eqb_neq in H. rewrite H.
  now destruct (index_of ws k).
Qed.

Lemma not_keyword v k : ~ In v keywords -> In k keywords -> v <> k.
Proof. intros Hv Hk ->. contradiction. Qed.

Lemma index_of_value w ws k :
  ~ In w keywords -> In k keywords ->
  index_of (w :: ws) k = option_map S (index_of ws k).
Proof. intros Hw Hk. apply index_of_skip. now apply not_keyword. Qed.





(** A first line of exactly one token ends the header region at once: the
    labelled lines that follow are not scanned, the five values keep 0.0,
    the object is scaled by (0.0, 0.0, 0.0) and gets no mirror. *)
Lemma one_token_first_line_hides_the_labels
  (title : string) (rest : list string)
  (obj : blender_object) (out : list string) :
  length (words_of title) = 1 ->
  run (import_wamit_gdf_operator (title :: rest)) = (Ok obj, out) ->
  scale obj = (fzero, fzero, fzero) /\ mirror_ops obj = [].
Proof.
  intros H1. rewrite import_eq, for_lines_cons, body_eq.
  change (in_header initial) with true. cbv iota. rewrite H1.
  change (1 =? 1) with true. cbv iota.
  destruct (for_lines rest (set_in_header false initial)
              (["Hello World"] ++ ["End of header"])%list)
    as [[st|e] out1] eqn:E; [|discriminate].
  apply panel_region_frame in E as (_ & Hu & _ & Hx & Hy & _);
    [|reflexivity].
  intros H; inversion H; subst; clear H. cbn [scale mirror_ops].
  simpl in Hu, Hx, Hy. unfold mirror_of.
  now rewrite Hu, Hx, Hy, fzero_not_one.
Qed.

(** ** Claims on validation *)




(** * Further properties of the importer *)

(** ** The words of a line *)

Lemma split_from_lstrip tok s :
  is_empty tok = true -> split_from tok (lstrip s) = split_from tok s.
Proof.
  intros Ht. induction s as [|c s IH]; [reflexivity|].
  simpl. destruct (isspace c) eqn:Ec.
  - rewrite Ht. destruct tok; [exact IH | discriminate].
  - simpl. now rewrite Ec.
Qed.

Lemma split_from_rstrip tok s :
  split_from tok (rstrip s) = split_from tok s.
Proof.
  revert tok. induction s as [|c s IH]; intros tok; [reflexivity|].
  simpl. destruct (isspace c) eqn:Ec; simpl.
  - destruct (is_empty (rstrip s)) eqn:Er.
    + destruct (rstrip s) eqn:Es; [|discriminate].
      rewrite <- (IH EmptyString). simpl.
      now destruct (is_empty tok).
    + simpl. rewrite Ec. now rewrite !IH.
  - rewrite Ec. apply IH.
Qed.

(** [strip] before [split] changes nothing. *)
Lemma words_of_split line : words_of line = split line.
Proof.
  unfold words_of, strip, split.
  now rewrite split_from_lstrip, split_from_rstrip.
Qed.

Lemma split_from_app_space tok s1 c s2 :
  isspace c = true ->
  split_from tok (s1 ++ String c s2)
  = (split_from tok s1 ++ split s2)%list.
Proof.
  intros Hc. revert tok. induction s1 as [|d s1 IH]; intros tok; simpl.
  - rewrite Hc. now destruct (is_empty tok).
  - destruct (isspace d).
    + destruct (is_empty tok); simpl; now rewrite IH.
    + apply IH.
Qed.

Lemma clean_snoc tok c :
  forallb (fun c => negb (isspace c)) (list_ascii_of_string tok) = true ->
  isspace c = false ->
  clean (tok ++ String c EmptyString).
Proof.
  intros Ht Hc. split.
  - now destruct tok.
  - induction tok as [|d tok IH]; simpl in *.
    + now rewrite Hc.
    + apply andb_true_iff in Ht as [Hd Ht]. rewrite Hd. now apply IH.
Qed.

Lemma split_from_clean tok s w :
  forallb (fun c => negb (isspace c)) (list_ascii_of_string tok) = true ->
  In w (split_from tok s) -> clean w.
Proof.
  revert tok. induction s as [|c s IH]; intros tok Ht; simpl.
  - destruct (is_empty tok) eqn:E; [intros []|].
    intros [<-|[]]. split; [now destruct tok | exact Ht].
  - destruct (isspace c) eqn:Ec.
    + destruct (is_empty tok) eqn:E.
      * now apply IH.
      * intros [<-|H]; [|now apply (IH EmptyString)].
        split; [now destruct tok | exact Ht].
    + apply IH. now apply clean_snoc.
Qed.

(** X1.  The words of a line are never empty and never contain a white
    space character. *)
Theorem words_are_nonempty_and_without_space (line w : string) :
  In w (words_of line) ->
  w <> EmptyString /\
  forallb (fun c => negb (isspace c)) (list_ascii_of_string w) = true.
Proof.
  rewrite words_of_split. unfold split.
  now apply split_from_clean.
Qed.

(** X2.  A white space character separates: the words of [s1 c s2] are the
    words of [s1] followed by the words of [s2], whatever white space
    surrounds them. *)
Theorem words_split_at_white_space (s1 s2 : string) (c : ascii) :
  isspace c = true ->
  words_of (s1 ++ String c s2) = (words_of s1 ++ words_of s2)%list.
Proof.
  intros Hc. rewrite !words_of_split. unfold split.
  now apply split_from_app_space.
Qed.

Lemma blank_no_words line : blank line = true -> words_of line = [].
Proof.
  rewrite words_of_split. unfold blank, split.
  induction line as [|c s IH]; [reflexivity|].
  simpl. intros H. apply andb_true_iff in H as [Hc Hs].
  rewrite Hc. now apply IH.
Qed.

Lemma body_no_words st line out :
  words_of line = [] -> body st line out = (Ok st, out).
Proof.
  intros Hw. rewrite body_eq, Hw. simpl.
  destruct (in_header st); reflexivity.
Qed.

(** X3.  Blank lines are insignificant: a line made of white space only
    can be inserted anywhere in the file without changing the outcome; in
    particular it does not end the header region. *)
Theorem blank_lines_are_insignificant
  (l1 l2 : list string) (line : string) :
  blank line = true ->
  run (import_wamit_gdf_operator (l1 ++ line :: l2))
  = run (import_wamit_gdf_operator (l1 ++ l2)).
Proof.
  intros Hb. rewrite !import_eq, !for_lines_app.
  destruct (for_lines l1 initial ["Hello World"]) as [[st|e] out];
    [|reflexivity].
  rewrite for_lines_cons, body_no_words by now apply blank_no_words.
  reflexivity.
Qed.

(** ** Exceptions *)

Lemma label_present_value words k i :
  index_of words k = Some i ->
  exists value,
    nth_error words (value_position i (length words)) = Some value.
Proof.
  intros Hi. apply index_of_lt in Hi.
  pose proof (value_position_lt _ _ Hi) as Hp.
  destruct (nth_error words (value_position i (length words))) as [v|] eqn:E;
    [eauto|].
  apply nth_error_None in E. lia.
Qed.

(** The loop over the keywords returns exactly when every label present
    reads a numeric word; otherwise it raises [ValueError]. *)
Lemma for_keywords_result ks words st out :
  incl ks keywords ->
  if forallb (label_numeric words) ks
  then exists st' out', for_keywords ks words st out = (Ok st', out')
  else exists out', for_keywords ks words st out = (Raise ValueError, out').
Proof.
  revert st out. induction ks as [|k ks IH]; intros st out Hincl.
  - simpl. unfold ret. eauto.
  - assert (In k keywords) as Hk by (apply Hincl; now left).
    assert (incl ks keywords) as Hks by (intros x Hx; apply Hincl; now right).
    simpl. unfold bind at 1, bind at 1. rewrite !scan_keyword_eq by exact Hk.
    unfold label_numeric at 1.
    destruct (index_of words k) as [i|] eqn:Ei.
    + destruct (label_present_value _ _ _ Ei) as [value ->].
      unfold numeric.
      destruct (float_of_string value) as [x|]; simpl.
      * apply IH. exact Hks.
      * eauto.
    + simpl. apply IH. exact Hks.
Qed.

Lemma floats_of_numeric ws :
  forallb numeric ws = true <-> exists xs, floats_of ws = Some xs.
Proof.
  induction ws as [|w ws IH]; simpl.
  - split; eauto.
  - unfold numeric at 1. destruct (float_of_string w) as [x|]; simpl.
    + rewrite IH. split.
      * intros [xs ->]. eauto.
      * destruct (floats_of ws) as [xs|]; [eauto|]. now intros [? ?].
    + split; [discriminate | now intros [? ?]].
Qed.

Lemma for_lines_result lines st out :
  if lines_numeric (in_header st) lines
  then exists st' out', for_lines lines st out = (Ok st', out')
  else exists out', for_lines lines st out = (Raise ValueError, out').
Proof.
  revert st out. induction lines as [|line lines IH]; intros st out.
  - unfold lines_numeric. simpl. destruct (in_header st); unfold ret; eauto.
  - rewrite for_lines_cons, body_eq.
    destruct (in_header st) eqn:Eh; unfold lines_numeric;
      cbn [header_region panel_region forallb].
    + destruct (Nat.eqb_spec (length (words_of line)) 1) as [H1|H1].
      * cbn [forallb andb].
        specialize (IH (set_in_header false st)
                       (out ++ ["End of header"])%list).
        exact IH.
      * cbn [forallb]. unfold labels_numeric at 1.
        pose proof (for_keywords_result keywords (words_of line) st out
                      (incl_refl _)) as Hk.
        destruct (forallb (label_numeric (words_of line)) keywords);
          cbn [andb].
        -- destruct Hk as (st1 & out1 & Hk). rewrite Hk.
           pose proof (for_keywords_same_mesh _ _ _ _ _ _ Hk) as (_ & _ & Hh).
           specialize (IH st1 out1). rewrite Hh, Eh in IH. exact IH.
        -- destruct Hk as (out1 & Hk). rewrite Hk. eauto.
    + unfold coordinates_numeric at 1, twelve.
      destruct (length (words_of line) =? 12); cbn [negb orb andb].
      * destruct (forallb numeric (words_of line)) eqn:En; cbn [andb].
        -- apply floats_of_numeric in En as [xs ->].
           specialize (IH (set_mesh (vertices st ++ group3 xs)%list
                             (faces st ++ [seq (length (vertices st)) 4])%list
                             st)
                          (out ++ [vertex_echo line])%list).
           cbn [in_header set_mesh] in IH. rewrite Eh in IH. exact IH.
        -- destruct (floats_of (words_of line)) as [xs|] eqn:E.
           ++ assert (forallb numeric (words_of line) = true)
                by (apply floats_of_numeric; eauto).
              congruence.
           ++ eauto.
      * specialize (IH st out). rewrite Eh in IH. exact IH.
Qed.

(** X4.  The only exception the importer raises is [ValueError]: the
    subscripts [words[valueindex]] and [words[j]] are always in range. *)
Theorem import_raises_only_ValueError
  (lines : list string) (e : exn) (out : list string) :
  run (import_wamit_gdf_operator lines) = (Raise e, out) ->
  e = ValueError.
Proof.
  rewrite import_eq.
  pose proof (for_lines_result lines initial ["Hello World"]) as H.
  destruct (lines_numeric (in_header initial) lines).
  - destruct H as (st & out1 & ->). discriminate.
  - destruct H as (out1 & ->). congruence.
Qed.

(** X5.  The import returns a model exactly when every label present on a
    line of the header region reads a numeric word and every line of
    twelve words of the panel region is made of numeric words. *)
Theorem import_returns_iff_numeric (lines : list string) :
  (exists obj out, run (import_wamit_gdf_operator lines) = (Ok obj, out))
  <->
  forallb labels_numeric (header_region lines)
  && forallb coordinates_numeric (panel_region lines) = true.
Proof.
  rewrite import_eq.
  pose proof (for_lines_result lines initial ["Hello World"]) as H.
  change (in_header initial) with true in H. unfold lines_numeric in H.
  destruct (forallb labels_numeric (header_region lines)
            && forallb coordinates_numeric (panel_region lines)).
  - destruct H as (st & out1 & ->). split; eauto.
  - destruct H as (out1 & ->). split; [|discriminate].
    intros (obj & out & H). discriminate.
Qed.

(** X6.  An exception ends the import: when the import of some lines
    raises, the import of these lines followed by any others raises the
    same exception with the same console. *)
Theorem exception_ends_the_import
  (pre rest : list string) (e : exn) (out : list string) :
  run (import_wamit_gdf_operator pre) = (Raise e, out) ->
  run (import_wamit_gdf_operator (pre ++ rest)) = (Raise e, out).
Proof.
  rewrite !import_eq, for_lines_app.
  destruct (for_lines pre initial ["Hello World"]) as [[st|e1] out1];
    [discriminate|].
  auto.
Qed.

(** ** What the mesh, the scale and the mirrors depend on *)

Lemma panel_lines_mesh lines st out st' out' :
  in_header st = false ->
  for_lines lines st out = (Ok st', out') ->
  vertices st'
  = (vertices st ++ flat_map panel_coords (filter twelve lines))%list /\
  length (faces st') = length (faces st) + length (filter twelve lines).
Proof.
  revert st out. induction lines as [|line lines IH]; intros st out Hh.
  - simpl. unfold ret. intros H; inversion H; subst.
    rewrite app_nil_r. split; [reflexivity | lia].
  - rewrite for_lines_cons, body_eq, Hh. cbn [filter].
    fold (twelve line). destruct (twelve line).
    + destruct (floats_of (words_of line)) as [xs|] eqn:E; [|discriminate].
      intros H. apply IH in H as [Hv Hf]; [|exact Hh].
      cbn [vertices faces set_mesh] in Hv, Hf.
      rewrite length_app in Hf. cbn [flat_map length] in *.
      unfold panel_coords at 1. rewrite E.
      split; [now rewrite Hv, <- app_assoc | lia].
    + now apply IH.
Qed.

Lemma all_lines_mesh lines st out st' out' :
  in_header st = true ->
  for_lines lines st out = (Ok st', out') ->
  vertices st'
  = (vertices st
       ++ flat_map panel_coords (filter twelve (panel_region lines)))%list /\
  length (faces st')
  = length (faces st) + length (filter twelve (panel_region lines)).
Proof.
  revert st out. induction lines as [|line lines IH]; intros st out Hh.
  - simpl. unfold ret. intros H; inversion H; subst.
    rewrite app_nil_r. split; [reflexivity | lia].
  - rewrite for_lines_cons, body_eq, Hh. cbn [panel_region].
    destruct (length (words_of line) =? 1).
    + intros H. now apply panel_lines_mesh in H.
    + destruct (for_keywords keywords (words_of line) st out)
        as [[st1|e] out1] eqn:Ek; [|discriminate].
      apply for_keywords_same_mesh in Ek as (Hv & Hf & Hh1).
      intros H. apply IH in H; [|congruence].
      now rewrite Hv, Hf in H.
Qed.

(** X7.  The mesh depends on the panel region only: its vertices are the
    coordinates of the lines of twelve words that follow the first
    one-token line, in file order, and it has one face per such line. *)
Theorem mesh_is_read_from_the_panel_region
  (lines : list string) (obj : blender_object) (out : list string) :
  run (import_wamit_gdf_operator lines) = (Ok obj, out) ->
  mesh_vertices obj
  = flat_map panel_coords (filter twelve (panel_region lines)) /\
  mesh_faces obj
  = map quad (seq 0 (length (filter twelve (panel_region lines)))).
Proof.
  rewrite import_eq.
  destruct (for_lines lines initial ["Hello World"]) as [[st|e] out1] eqn:E;
    [|discriminate].
  intros H; inversion H; subst; clear H. cbn [mesh_vertices mesh_faces].
  destruct (all_lines_mesh lines initial _ _ _ eq_refl E) as [Hv Hf].
  apply for_lines_mesh_inv in E as [_ Hq]; [|apply initial_mesh_inv].
  split; [exact Hv|]. rewrite Hq. now rewrite Hf.
Qed.

Lemma panel_region_without_end lines :
  Forall (fun line => length (words_of line) <> 1) lines ->
  panel_region lines = [].
Proof.
  induction 1 as [|line lines H1 _ IH]; [reflexivity|].
  simpl. apply Nat.eqb_neq in H1. now rewrite H1.
Qed.

(** X8.  Without a line of exactly one token nothing is imported: such a
    file (the empty file, or a file whose panel count is labelled or
    missing) gives an empty mesh, whatever panel lines it holds. *)
Theorem no_single_token_line_no_mesh
  (lines : list string) (obj : blender_object) (out : list string) :
  Forall (fun line => length (words_of line) <> 1) lines ->
  run (import_wamit_gdf_operator lines) = (Ok obj, out) ->
  mesh_vertices obj = [] /\ mesh_faces obj = [].
Proof.
  intros Hn. rewrite import_eq.
  destruct (for_lines lines initial ["Hello World"]) as [[st|e] out1] eqn:E;
    [|discriminate].
  intros H; inversion H; subst; clear H. cbn [mesh_vertices mesh_faces].
  destruct (all_lines_mesh lines initial _ _ _ eq_refl E) as [Hv Hf].
  rewrite (panel_region_without_end _ Hn) in Hv, Hf. simpl in Hv, Hf.
  split; [exact Hv|]. now destruct (faces st).
Qed.

Lemma header_region_run lines st out st' out' :
  in_header st = true ->
  for_lines lines st out = (Ok st', out') ->
  exists sth outh,
    for_lines (header_region lines) st out = (Ok sth, outh) /\
    same_scalars sth st'.
Proof.
  revert st out. induction lines as [|line lines IH]; intros st out Hh.
  - simpl. unfold ret. intros H; inversion H; subst.
    exists st', out'. split; [reflexivity | apply same_scalars_refl].
  - rewrite for_lines_cons, body_eq, Hh. cbn [header_region].
    destruct (length (words_of line) =? 1) eqn:E1.
    + intros H. apply panel_region_frame in H as [_ H]; [|reflexivity].
      exists st, out. split; [reflexivity | exact H].
    + rewrite for_lines_cons, body_eq, Hh, E1.
      destruct (for_keywords keywords (words_of line) st out)
        as [[st1|e] out1] eqn:Ek; [|discriminate].
      apply for_keywords_same_mesh in Ek as (_ & _ & Hh1).
      apply IH. congruence.
Qed.

(** X9.  The scale and the mirror operations depend on the header region
    only: importing the lines before the first one-token line alone gives
    the same scale and the same mirror operations, so labels written below
    that line are ignored. *)
Theorem scale_and_mirrors_are_read_from_the_header_region
  (lines : list string) (obj : blender_object) (out : list string) :
  run (import_wamit_gdf_operator lines) = (Ok obj, out) ->
  exists obj' out',
    run (import_wamit_gdf_operator (header_region lines)) = (Ok obj', out') /\
    scale obj' = scale obj /\ mirror_ops obj' = mirror_ops obj.
Proof.
  rewrite !import_eq.
  destruct (for_lines lines initial ["Hello World"]) as [[st|e] out1] eqn:E;
    [|discriminate].
  intros H; inversion H; subst; clear H.
  destruct (header_region_run lines initial _ _ _ eq_refl E)
    as (sth & outh & -> & Hu & _ & Hx & Hy & _).
  eexists. eexists. split; [reflexivity|].
  cbn [scale mirror_ops]. now rewrite Hu, Hx, Hy.
Qed.

Lemma for_lines_grows lines st out st' out' :
  for_lines lines st out = (Ok st', out') ->
  exists vs fs,
    vertices st' = (vertices st ++ vs)%list /\
    faces st' = (faces st ++ fs)%list.
Proof.
  revert st out. induction lines as [|line lines IH]; intros st out.
  - simpl. unfold ret. intros H; inversion H; subst.
    exists [], []. now rewrite !app_nil_r.
  - rewrite for_lines_cons.
    destruct (body st line out) as [[st1|e] out1] eqn:E; [|discriminate].
    intros H. apply IH in H as (vs & fs & Hv & Hf).
    rewrite body_eq in E.
    assert (exists vs1 fs1,
               vertices st1 = (vertices st ++ vs1)%list /\
               faces st1 = (faces st ++ fs1)%list) as (vs1 & fs1 & Hv1 & Hf1).
    { destruct (in_header st).
      - destruct (length (words_of line) =? 1).
        + inversion E; subst. exists [], []. now rewrite !app_nil_r.
        + apply for_keywords_same_mesh in E as (Hv1 & Hf1 & _).
          exists [], []. now rewrite !app_nil_r.
      - destruct (length (words_of line) =? 12).
        + destruct (floats_of (words_of line)) as [xs|];
            inversion E; subst. simpl. eauto.
        + inversion E; subst. exists [], []. now rewrite !app_nil_r. }
    exists (vs1 ++ vs)%list, (fs1 ++ fs)%list.
    now rewrite Hv, Hf, Hv1, Hf1, !app_assoc.
Qed.

(** X10.  Reading more lines only appends to the mesh: the vertices and
    faces imported from a file are a prefix of those imported from the
    file followed by further lines. *)
Theorem further_lines_only_append_to_the_mesh
  (l1 l2 : list string) (obj1 obj2 : blender_object)
  (out1 out2 : list string) :
  run (import_wamit_gdf_operator l1) = (Ok obj1, out1) ->
  run (import_wamit_gdf_operator (l1 ++ l2)) = (Ok obj2, out2) ->
  exists vs fs,
    mesh_vertices obj2 = (mesh_vertices obj1 ++ vs)%list /\
    mesh_faces obj2 = (mesh_faces obj1 ++ fs)%list.
Proof.
  rewrite !import_eq, for_lines_app.
  destruct (for_lines l1 initial ["Hello World"]) as [[st1|e] o1];
    [|discriminate].
  intros H1; inversion H1; subst; clear H1.
  destruct (for_lines l2 st1 o1) as [[st2|e] o2] eqn:E; [|discriminate].
  intros H2; inversion H2; subst; clear H2. cbn [mesh_vertices mesh_faces].
  eapply for_lines_grows; eauto.
Qed.

(** ** Layouts of a labelled line *)

Ltac scan_label :=
  unfold bind at 1;
  rewrite scan_keyword_eq by (simpl; tauto);
  repeat first
    [ rewrite index_of_skip by discriminate
    | rewrite index_of_value by (assumption || (simpl; tauto)) ];
  cbn -[float_of_string scan_keyword echo].

Lemma body_values_first st line out v g :
  in_header st = true ->
  words_of line = [v; g; "ULEN"; "GRAV"] ->
  ~ In v keywords -> ~ In g keywords ->
  body st line out = ulen_grav_outcome st out v g.
Proof.
  intros Hh Hw Hv Hg. unfold ulen_grav_outcome.
  rewrite body_eq, Hh, Hw. cbn -[float_of_string scan_keyword echo].
  scan_label. destruct (float_of_string v) as [x|]; [|reflexivity].
  scan_label. destruct (float_of_string g) as [y|];
    [|now rewrite <- app_assoc].
  scan_label. scan_label. scan_label.
  unfold ret. now rewrite <- app_assoc.
Qed.

Lemma body_labels_first st line out v g :
  in_header st = true ->
  words_of line = ["ULEN"; "GRAV"; v; g] ->
  ~ In v keywords -> ~ In g keywords ->
  body st line out = ulen_grav_outcome st out v g.
Proof.
  intros Hh Hw Hv Hg. unfold ulen_grav_outcome.
  rewrite body_eq, Hh, Hw. cbn -[float_of_string scan_keyword echo].
  scan_label. destruct (float_of_string v) as [x|]; [|reflexivity].
  scan_label. destruct (float_of_string g) as [y|];
    [|now rewrite <- app_assoc].
  scan_label. scan_label. scan_label.
  unfold ret. now rewrite <- app_assoc.
Qed.

(** X11.  The labels may come before or after the values: a line
    [ULEN GRAV v g] can replace a line [v g ULEN GRAV] anywhere in the file
    without changing the outcome (the negative subscript reads the values
    from the end of the line). *)
Theorem labels_first_or_values_first
  (pre post : list string) (l1 l2 v g : string) :
  words_of l1 = [v; g; "ULEN"; "GRAV"] ->
  words_of l2 = ["ULEN"; "GRAV"; v; g] ->
  ~ In v keywords -> ~ In g keywords ->
  run (import_wamit_gdf_operator (pre ++ l1 :: post))
  = run (import_wamit_gdf_operator (pre ++ l2 :: post)).
Proof.
  intros H1 H2 Hv Hg. rewrite !import_eq, !for_lines_app.
  destruct (for_lines pre initial ["Hello World"]) as [[st|e] out];
    [|reflexivity].
  rewrite !for_lines_cons.
  destruct (in_header st) eqn:Hh.
  - now rewrite (body_values_first st l1 out v g Hh H1 Hv Hg),
      (body_labels_first st l2 out v g Hh H2 Hv Hg).
  - rewrite !body_eq, Hh, H1, H2. reflexivity.
Qed.

(** X12.  A line of the header region made of labels only, two or more
    (such as [ULEN GRAV]), aborts the import with [ValueError], given that
    [float] rejects the labels. *)
Theorem line_of_labels_raises
  (pre rest : list string) (line : string) (sth : locals)
  (outh : list string) :
  (forall k, In k keywords -> float_of_string k = None) ->
  for_lines pre initial ["Hello World"] = (Ok sth, outh) ->
  in_header sth = true ->
  2 <= length (words_of line) ->
  Forall (fun w => In w keywords) (words_of line) ->
  exists out,
    run (import_wamit_gdf_operator (pre ++ line :: rest))
    = (Raise ValueError, out).
Proof.
  intros Hrej Hpre Hh Hlen Hall.
  rewrite import_eq, for_lines_app, Hpre, for_lines_cons, body_eq, Hh.
  destruct (Nat.eqb_spec (length (words_of line)) 1) as [H1|_]; [lia|].
  pose proof (for_keywords_result keywords (words_of line) sth outh
                (incl_refl _)) as Hk.
  assert (forallb (label_numeric (words_of line)) keywords = false) as Hf.
  { destruct (words_of line) as [|w0 ws] eqn:Ew; [simpl in Hlen; lia|].
    assert (In w0 keywords) as Hw0 by (inversion Hall; assumption).
    destruct (forallb (label_numeric (w0 :: ws)) keywords) eqn:Ef;
      [|reflexivity].
    rewrite forallb_forall in Ef. specialize (Ef w0 Hw0).
    unfold label_numeric in Ef.
    assert (index_of (w0 :: ws) w0 = Some 0) as Hi
        by (simpl; now rewrite String.eqb_refl).
    rewrite Hi in Ef.
    destruct (label_present_value _ _ _ Hi) as [value Hv].
    rewrite Hv in Ef.
    assert (In value keywords) as Hvk.
    { rewrite Forall_forall in Hall. apply Hall.
      eapply nth_error_In; eauto. }
    unfold numeric in Ef. rewrite (Hrej _ Hvk) in Ef. discriminate. }
  rewrite Hf in Hk. destruct Hk as (out & ->). eauto.
Qed.

(** ** The console *)

Lemma echo_not_success k value :
  In k keywords -> echo k value <> success_message.
Proof.
  intros Hk. simpl in Hk.
  decompose [or] Hk; subst; try contradiction; discriminate.
Qed.

Lemma for_keywords_console ks words st out r out' :
  incl ks keywords ->
  for_keywords ks words st out = (r, out') ->
  ~ In success_message out -> ~ In success_message out'.
Proof.
  revert st out. induction ks as [|k ks IH]; intros st out Hincl.
  - simpl. unfold ret. intros H; inversion H; subst. auto.
  - assert (In k keywords) as Hk by (apply Hincl; now left).
    assert (incl ks keywords) as Hks by (intros x Hx; apply Hincl; now right).
    simpl. unfold bind at 1. rewrite scan_keyword_eq by exact Hk.
    assert (forall value, ~ In success_message out ->
                          ~ In success_message (out ++ [echo k value])%list)
      as Hecho.
    { intros value Hn Hin. apply in_app_or in Hin as [Hin|[Hin|[]]];
        [contradiction | now apply (echo_not_success k value)]. }
    destruct (index_of words k) as [i|].
    + destruct (nth_error words (value_position i (length words)))
        as [value|].
      * destruct (float_of_string value) as [x|].
        -- intros H Hn. eapply IH; eauto.
        -- intros H; inversion H; subst. auto.
      * intros H; inversion H; subst. auto.
    + now apply IH.
Qed.

Lemma for_lines_console lines st out r out' :
  for_lines lines st out = (r, out') ->
  ~ In success_message out -> ~ In success_message out'.
Proof.
  revert st out. induction lines as [|line lines IH]; intros st out.
  - simpl. unfold ret. intros H; inversion H; subst. auto.
  - rewrite for_lines_cons.
    destruct (body st line out) as [r1 out1] eqn:E.
    assert (~ In success_message out -> ~ In success_message out1) as Hstep.
    { rewrite body_eq in E.
      assert (forall m, m <> success_message ->
                        ~ In success_message out ->
                        ~ In success_message (out ++ [m])%list) as Hsnoc.
      { intros m Hm Hn Hin. apply in_app_or in Hin as [Hin|[Hin|[]]];
          [contradiction | congruence]. }
      destruct (in_header st).
      - destruct (length (words_of line) =? 1).
        + inversion E; subst. apply Hsnoc. discriminate.
        + eapply for_keywords_console; eauto. apply incl_refl.
      - destruct (length (words_of line) =? 12).
        + destruct (floats_of (words_of line)); inversion E; subst;
            apply Hsnoc; discriminate.
        + inversion E; subst. auto. }
    destruct r1 as [st1|e].
    + intros H Hn. eapply IH; eauto.
    + intros H; inversion H; subst. exact Hstep.
Qed.

(** X13.  The line "WAMIT GDF file imported successfully." is on the
    console exactly when the import returned a model: no other printed
    line, whatever the file holds, is equal to it. *)
Theorem success_message_iff_returned (lines : list string) :
  In success_message (snd (run (import_wamit_gdf_operator lines)))
  <->
  exists obj, fst (run (import_wamit_gdf_operator lines)) = Ok obj.
Proof.
  rewrite import_eq.
  destruct (for_lines lines initial ["Hello World"]) as [[st|e] out] eqn:E.
  - cbn [fst snd]. split; [eauto|]. intros _.
    rewrite !in_app_iff. right. right. right. now left.
  - cbn [fst snd]. split; [|intros [obj H]; discriminate].
    intros Hin. exfalso.
    apply (for_lines_console _ _ _ _ _ E); [|exact Hin].
    intros [H|[]]. discriminate.
Qed.

End Properties.

(** * Concrete runs, with [QFloat] *)

Section Runs.

(** C1.  The unit square given on one line is imported as one panel; the
    same twelve coordinates on four lines of three are dropped: the import
    returns an empty mesh and prints no vertex data. *)
Theorem panel_split_over_lines_is_dropped :
  import_Q gdf_square_one_line
  = (Ok (mkObject (F := QFloat) square [[0; 1; 2; 3]] (1, 1, 1)%Q []),
     ["Hello World"; "ULEN: 1"; "GRAV: 9.80665"; "ISX: 0"; "ISY: 0";
      "End of header"; vertex_echo square_line;
      "WAMIT GDF file imported successfully."]) /\
  import_Q gdf_square_four_lines
  = (Ok (mkObject (F := QFloat) [] [] (1, 1, 1)%Q []),
     ["Hello World"; "ULEN: 1"; "GRAV: 9.80665"; "ISX: 0"; "ISY: 0";
      "End of header"; "WAMIT GDF file imported successfully."]).
Proof. split; reflexivity. Qed.


(** C3.  The header is not read as one line of free text.  With a title of
    three words the labelled lines that follow are read: scale (1, 1, 1)
    and the x mirror.  With a title of one word the title itself ends the
    header region, the same labelled lines are skipped, and the object is
    scaled by (0, 0, 0) without mirror.  With a title that contains the
    word ULEN the title is searched for a value and the import raises
    [ValueError]. *)
Theorem header_line_is_not_free_text :
  import_Q gdf_three_word_title
  = (Ok (mkObject (F := QFloat) square [[0; 1; 2; 3]] (1, 1, 1)%Q
                  [modifier_add_MIRROR; use_axis_True 0]),
     ["Hello World"; "ULEN: 1"; "GRAV: 9.80665"; "ISX: 1"; "ISY: 0";
      "End of header"; vertex_echo square_line;
      "X = 0 is a geometric plane of symmetry";
      "WAMIT GDF file imported successfully."]) /\
  import_Q gdf_one_word_title
  = (Ok (mkObject (F := QFloat) square [[0; 1; 2; 3]] (0, 0, 0)%Q []),
     ["Hello World"; "End of header"; vertex_echo square_line;
      "WAMIT GDF file imported successfully."]) /\
  import_Q gdf_label_in_title
  = (Raise ValueError, ["Hello World"; "ULEN: body"]).
Proof. repeat split; reflexivity. Qed.


(** C5, counterexample.  A panel whose four vertices are all the origin
    has no extent: its area is zero, below [ulen^2 * 1e-10] for ULEN = 1.
    It is stored like any other panel and the import returns without any
    error. *)
Lemma zero_area_panel_is_accepted :
  import_Q gdf_point_panel
  = (Ok (mkObject (F := QFloat)
                  [(0, 0, 0); (0, 0, 0); (0, 0, 0); (0, 0, 0)]%Q
                  [[0; 1; 2; 3]] (1, 1, 1)%Q []),
     ["Hello World"; "ULEN: 1"; "GRAV: 9.80665"; "ISX: 0"; "ISY: 0";
      "End of header";
      vertex_echo ("0 0 0 0 0 0 0 0 0 0 0 0" ++ LF)%string;
      "WAMIT GDF file imported successfully."]).
Proof. reflexivity. Qed.


(** ** The general statements at sample files *)

Lemma faces_tile_vertices_witness :
  for_lines (F := QFloat) (firstn 5 gdf_labelled) initial ["Hello World"]
  = (Ok labelled_prefix_state, labelled_prefix_console) /\
  length (faces labelled_prefix_state) = 1 /\
  length (vertices labelled_prefix_state)
  = 4 * length (faces labelled_prefix_state) /\
  (forall i, i < length (faces labelled_prefix_state) ->
     nth_error (faces labelled_prefix_state) i
     = Some [4 * i; 4 * i + 1; 4 * i + 2; 4 * i + 3]) /\
  (forall face k, In face (faces labelled_prefix_state) -> In k face ->
     k < length (vertices labelled_prefix_state)) /\
  (forall v, v < length (vertices labelled_prefix_state) ->
     exists i,
       (exists face,
           nth_error (faces labelled_prefix_state) i = Some face /\
           In v face) /\
       (forall j face,
           nth_error (faces labelled_prefix_state) j = Some face ->
           In v face -> j = i)).
Proof.
  split; [reflexivity|]. split; [reflexivity|].
  apply (faces_tile_vertices_on_every_prefix
           (F := QFloat) gdf_labelled 5 ["Hello World"]
           labelled_prefix_state labelled_prefix_console).
  reflexivity.
Defined.

Lemma every_panel_has_four_vertices_witness :
  import_Q gdf_labelled = (Ok labelled_object, labelled_output) /\
  mesh_faces labelled_object = [[0; 1; 2; 3]; [4; 5; 6; 7]] /\
  Forall (fun face =>
            length face = 4 /\
            exists v1 v2 v3 v4 : vertex,
              map (nth_error (mesh_vertices labelled_object)) face
              = [Some v1; Some v2; Some v3; Some v4])
         (mesh_faces labelled_object).
Proof.
  split; [reflexivity|]. split; [reflexivity|].
  apply (every_panel_has_four_vertices
           (F := QFloat) gdf_labelled labelled_object labelled_output).
  reflexivity.
Defined.

Lemma unlabelled_header_keeps_defaults_witness :
  forallb unlabelled (header_region gdf_positional) = true /\
  (forall out0 st out,
      for_lines (F := QFloat) gdf_positional initial out0 = (Ok st, out) ->
      ulen st = fzero /\ grav st = fzero /\ isx st = fzero /\
      isy st = fzero /\ npan st = fzero) /\
  (forall obj out,
      import_Q gdf_positional = (Ok obj, out) ->
      scale obj = (fzero, fzero, fzero) /\ mirror_ops obj = []).
Proof.
  split; [reflexivity|].
  apply (unlabelled_header_keeps_defaults (F := QFloat) gdf_positional).
  reflexivity.
Defined.

Lemma panels_are_stored_witness :
  import_Q (firstn 3 gdf_point_panel
              ++ ("1" ++ LF)%string
              :: [("0 0 0 0 0 0 0 0 0 0 0 0" ++ LF)%string; square_line])
  = (Ok (mkObject (F := QFloat)
                  ([(0, 0, 0); (0, 0, 0); (0, 0, 0); (0, 0, 0)]%Q ++ square)
                  [[0; 1; 2; 3]; [4; 5; 6; 7]] (1, 1, 1)%Q []),
     ["Hello World"; "ULEN: 1"; "GRAV: 9.80665"; "ISX: 0"; "ISY: 0";
      "End of header";
      vertex_echo ("0 0 0 0 0 0 0 0 0 0 0 0" ++ LF)%string;
      vertex_echo square_line;
      "WAMIT GDF file imported successfully."]).
Proof.
  apply (panels_are_stored_without_area_check (F := QFloat)
           (firstn 3 gdf_point_panel) ("1" ++ LF)%string
           [("0 0 0 0 0 0 0 0 0 0 0 0" ++ LF)%string; square_line]
           [[0; 0; 0; 0; 0; 0; 0; 0; 0; 0; 0; 0];
            [0; 0; 0; 1; 0; 0; 1; 1; 0; 0; 1; 0]]%Q
           (mkLocals (F := QFloat) 1%Q (Qred (980665 # 100000)) 0%Q 0%Q 0%Q
                     [] [] true)
           ["Hello World"; "ULEN: 1"; "GRAV: 9.80665"; "ISX: 0"; "ISY: 0"]).
  - reflexivity.
  - reflexivity.
  - reflexivity.
  - repeat constructor.
Defined.




(** ** The further properties at sample files *)

Lemma words_are_nonempty_witness :
  "ULEN"%string <> EmptyString /\
  forallb (fun c => negb (isspace c)) (list_ascii_of_string "ULEN") = true.
Proof.
  apply (words_are_nonempty_and_without_space
           ("  1 9.80665 ULEN GRAV " ++ LF)%string "ULEN").
  simpl. tauto.
Defined.

Lemma words_split_witness :
  words_of ("1 9.80665" ++ String " " (" ULEN GRAV" ++ LF))%string
  = (words_of "1 9.80665" ++ words_of (" ULEN GRAV" ++ LF)%string)%list.
Proof.
  apply (words_split_at_white_space "1 9.80665" (" ULEN GRAV" ++ LF)%string
           " "%char).
  reflexivity.
Defined.

Lemma blank_lines_witness :
  import_Q (firstn 3 gdf_labelled ++ (" " ++ LF)%string
              :: skipn 3 gdf_labelled)
  = import_Q (firstn 3 gdf_labelled ++ skipn 3 gdf_labelled).
Proof.
  apply (blank_lines_are_insignificant (F := QFloat)
           (firstn 3 gdf_labelled) (skipn 3 gdf_labelled) (" " ++ LF)%string).
  reflexivity.
Defined.

Lemma import_raises_only_ValueError_witness :
  import_Q gdf_bad_coordinate = (Raise ValueError, bad_coordinate_console) /\
  ValueError = ValueError.
Proof.
  split; [reflexivity|].
  apply (import_raises_only_ValueError (F := QFloat)
           gdf_bad_coordinate ValueError bad_coordinate_console).
  reflexivity.
Defined.

Lemma exception_ends_the_import_witness :
  import_Q (gdf_bad_coordinate ++ [square_line])
  = (Raise ValueError, bad_coordinate_console).
Proof.
  apply (exception_ends_the_import (F := QFloat)
           gdf_bad_coordinate [square_line] ValueError
           bad_coordinate_console).
  reflexivity.
Defined.

Lemma mesh_is_read_from_the_panel_region_witness :
  mesh_vertices labelled_object
  = flat_map (panel_coords (F := QFloat))
             (filter twelve (panel_region gdf_labelled)) /\
  mesh_faces labelled_object
  = map quad (seq 0 (length (filter twelve (panel_region gdf_labelled)))).
Proof.
  apply (mesh_is_read_from_the_panel_region (F := QFloat)
           gdf_labelled labelled_object labelled_output).
  reflexivity.
Defined.

Lemma no_single_token_line_no_mesh_witness :
  import_Q gdf_without_count
  = (Ok (mkObject (F := QFloat) [] [] (1, 1, 1)%Q []),
     ["Hello World"; "ULEN: 1"; "GRAV: 9.80665"; "ISX: 0"; "ISY: 0";
      "WAMIT GDF file imported successfully."]) /\
  mesh_vertices (mkObject (F := QFloat) [] [] (1, 1, 1)%Q []) = [] /\
  mesh_faces (mkObject (F := QFloat) [] [] (1, 1, 1)%Q []) = [].
Proof.
  split; [reflexivity|].
  apply (no_single_token_line_no_mesh (F := QFloat) gdf_without_count
           (mkObject (F := QFloat) [] [] (1, 1, 1)%Q [])
           ["Hello World"; "ULEN: 1"; "GRAV: 9.80665"; "ISX: 0"; "ISY: 0";
            "WAMIT GDF file imported successfully."]).
  - repeat constructor; vm_compute; discriminate.
  - reflexivity.
Defined.

Lemma scale_and_mirrors_witness :
  exists obj' out',
    import_Q (header_region gdf_labelled) = (Ok obj', out') /\
    scale obj' = scale labelled_object /\
    mirror_ops obj' = mirror_ops labelled_object.
Proof.
  apply (scale_and_mirrors_are_read_from_the_header_region (F := QFloat)
           gdf_labelled labelled_object labelled_output).
  reflexivity.
Defined.

Lemma further_lines_witness :
  exists vs fs,
    mesh_vertices labelled_object
    = (mesh_vertices labelled_prefix_object ++ vs)%list /\
    mesh_faces labelled_object
    = (mesh_faces labelled_prefix_object ++ fs)%list.
Proof.
  apply (further_lines_only_append_to_the_mesh (F := QFloat)
           (firstn 5 gdf_labelled) (skipn 5 gdf_labelled)
           labelled_prefix_object labelled_object
           labelled_prefix_output labelled_output).
  - reflexivity.
  - reflexivity.
Defined.

Lemma labels_first_witness :
  import_Q ([title_line] ++ values_first_line :: [count_line; square_line])%list
  = import_Q ([title_line] ++ labels_first_line
                :: [count_line; square_line])%list.
Proof.
  apply (labels_first_or_values_first (F := QFloat)
           [title_line] [count_line; square_line]
           values_first_line labels_first_line "1" "9.80665").
  - reflexivity.
  - reflexivity.
  - simpl; intuition discriminate.
  - simpl; intuition discriminate.
Defined.

Lemma line_of_labels_witness :
  exists out,
    import_Q ([title_line] ++ labels_only_line
                :: [count_line; square_line])%list
    = (Raise ValueError, out).
Proof.
  apply (line_of_labels_raises (F := QFloat)
           [title_line] [count_line; square_line]
           labels_only_line initial ["Hello World"]).
  - intros k Hk. simpl in Hk.
    decompose [or] Hk; subst; try contradiction; reflexivity.
  - reflexivity.
  - reflexivity.
  - vm_compute. repeat constructor.
  - repeat constructor; simpl; tauto.
Defined.

End Runs.
